(** * Stratos: the jetstream info aggregator and the paginated-request helper

    A shallow embedding of

    - [src/jetstream/info.go]: [info], [updateEndpointsWithRelations],
      [getInfo] and [marshalEndpointMetadata];
    - [src/frontend/app/store/helpers/paginated-request-helpers.ts]:
      [CfAPIFlattener] with [getTotalPages], [mergePages] and
      [buildFetchParams], [flattenPagination], and the row setter of
      [TableCellEndpointDetailsComponent];
    - [helm-release-summary-tab.component.ts]: the chart data and the URL of
      the delete request;

    followed by the properties of the aggregated snapshot, of the merged
    pages and of the components.

    Go values are modelled as follows.  A [map[string]T] is a [gmap string T];
    a pointer that may be [nil] is an [option]; a call returning [(T, error)]
    is a [result]; a call that may end in a run-time panic is a [run].  Errors
    are the strings that [%v] prints. *)

From Stdlib Require Import ZArith Ascii.
From stdpp Require Import gmap strings list fin_maps pretty.

Local Open Scope string_scope.

(** ** Go calling conventions *)

(** A Go call returning [(T, error)]. *)
Inductive result (A : Type) : Type :=
| Ok (a : A)
| Err (e : string).
Arguments Ok {A} a.
Arguments Err {A} e.

(** A Go call that either returns or unwinds with a run-time panic. *)
Inductive run (A : Type) : Type :=
| Return (a : A)
| Panic (msg : string).
Arguments Return {A} a.
Arguments Panic {A} msg.

(** [strings.Index(s, substr)]: the byte index of the first instance of
    [substr] in [s], or [-1] when there is none. *)
Fixpoint strings_Index_from (i : Z) (s substr : string) : Z :=
  if String.prefix substr s then i
  else match s with
       | EmptyString => (-1)%Z
       | String _ s' => strings_Index_from (i + 1)%Z s' substr
       end.

Definition strings_Index (s substr : string) : Z := strings_Index_from 0%Z s substr.

(** [json.Unmarshal([]byte(data), &anyJSON)] of [encoding/json] for a [nil]
    [map[string]interface{}] destination: the destination as the call
    leaves it ([None] is the nil map), and the error that the call returns,
    if any.  An error does not say that the destination is nil: a value
    that does not fit, such as a number that overflows, is reported after
    the map has been filled as far as possible. *)
Class JSONDecoder (JSONObject : Type) :=
  json_Unmarshal : string → option JSONObject * option string.

Section Jetstream.

(** The types of the [interfaces] package and of [echo] that [info.go] only
    passes along are kept abstract. *)
Context {EchoContext Versions CloudFoundryInfo PluginConfig Diagnostic
         PluginsStatus RelationMetadata JSONObject : Type}.
Context `{!JSONDecoder JSONObject}.

(** *** Records of the [interfaces] package, as [info.go] reads them *)

(** [interfaces.ConnectedUser]; [getInfo] reads [Admin]. *)
Record ConnectedUser := {
  ConnectedUser_GUID : string;
  Admin : bool;
}.

(** [interfaces.CNSIRecord]; [getInfo] reads [GUID], [Metadata], [CNSIType]. *)
Record CNSIRecord := {
  GUID : string;
  CNSI_Metadata : string;
  CNSIType : string;
}.

(** [interfaces.TokenRecord]; [getInfo] reads [Metadata] and [SystemShared]. *)
Record TokenRecord := {
  Token_Metadata : string;
  SystemShared : bool;
}.

(** A row of the relations table, as returned by [ListRelations]. *)
Record Relation := {
  Provider : string;
  Target : string;
  Relation_RelationType : string;
  Relation_Metadata : RelationMetadata;
}.

(** [interfaces.EndpointRelation]: one entry of a Provides/Receives list. *)
Record EndpointRelation := {
  Guid : string;
  RelationType : string;
  Metadata : RelationMetadata;
}.

Record EndpointRelations := {
  Provides : list EndpointRelation;
  Receives : list EndpointRelation;
}.

(** The [interface{}] built by [marshalEndpointMetadata]: a
    [map[string]interface{}] ([None] is the nil map) or the string itself. *)
Inductive EndpointMetadataValue :=
| MetadataMap (anyJSON : option JSONObject)
| MetadataString (metadata : string).

(** [interfaces.EndpointDetail].  [CNSIRecord] is embedded, so
    [endpoint.GUID] is [GUID (Endpoint_CNSIRecord endpoint)]. *)
Record EndpointDetail := {
  Endpoint_CNSIRecord : CNSIRecord;
  EndpointMetadata : EndpointMetadataValue;
  User : option ConnectedUser;
  Endpoint_Metadata : gmap string string;
  TokenMetadata : string;
  SystemSharedToken : bool;
  Relations : option EndpointRelations;
}.

Definition Endpoint_GUID (endpoint : EndpointDetail) : string :=
  GUID (Endpoint_CNSIRecord endpoint).

Definition set_Relations (endpoint : EndpointDetail) (r : option EndpointRelations)
  : EndpointDetail :=
  {| Endpoint_CNSIRecord := Endpoint_CNSIRecord endpoint;
     EndpointMetadata := EndpointMetadata endpoint;
     User := User endpoint;
     Endpoint_Metadata := Endpoint_Metadata endpoint;
     TokenMetadata := TokenMetadata endpoint;
     SystemSharedToken := SystemSharedToken endpoint;
     Relations := r |}.

(** [interfaces.Info], the snapshot. *)
Record Info := {
  Info_Versions : Versions;
  Info_User : ConnectedUser;
  Endpoints : gmap string (gmap string EndpointDetail);
  Info_CloudFoundry : CloudFoundryInfo;
  Info_PluginConfig : PluginConfig;
  Diagnostics : option Diagnostic;
  Info_Plugins : option PluginsStatus;
}.

Definition set_Endpoints (s : Info) (eps : gmap string (gmap string EndpointDetail)) : Info :=
  {| Info_Versions := Info_Versions s; Info_User := Info_User s; Endpoints := eps;
     Info_CloudFoundry := Info_CloudFoundry s; Info_PluginConfig := Info_PluginConfig s;
     Diagnostics := Diagnostics s; Info_Plugins := Info_Plugins s |}.

Definition set_Diagnostics (s : Info) (d : option Diagnostic) : Info :=
  {| Info_Versions := Info_Versions s; Info_User := Info_User s; Endpoints := Endpoints s;
     Info_CloudFoundry := Info_CloudFoundry s; Info_PluginConfig := Info_PluginConfig s;
     Diagnostics := d; Info_Plugins := Info_Plugins s |}.

Definition set_Plugins (s : Info) (ps : option PluginsStatus) : Info :=
  {| Info_Versions := Info_Versions s; Info_User := Info_User s; Endpoints := Endpoints s;
     Info_CloudFoundry := Info_CloudFoundry s; Info_PluginConfig := Info_PluginConfig s;
     Diagnostics := Diagnostics s; Info_Plugins := ps |}.

(** [interfaces.EndpointPlugin].  [UpdateMetadata(s, userGUID, c)] works on
    the snapshot through the pointer [s]: it hands back the snapshot as it
    left it, or panics.  Whatever it might return is dropped by the call
    statement of [getInfo]. *)
Record EndpointPlugin := {
  GetType : string;
  UpdateMetadata : Info → string → EchoContext → run Info;
}.

(** [interfaces.StratosPlugin]; [GetEndpointPlugin] fails for a plugin that
    does not implement the endpoint plugin interface. *)
Record StratosPlugin := {
  GetEndpointPlugin : result EndpointPlugin;
}.

(** The parts of [portalProxy] that [info.go] uses.  [Plugins] is listed in
    the order in which [range p.Plugins] visits it. *)
Record portalProxy := {
  getVersionsData : result Versions;
  GetSessionStringValue : EchoContext → string → result string;
  GetUAAUser : string → result ConnectedUser;
  Config_CloudFoundryInfo : CloudFoundryInfo;
  Config_PluginConfig : PluginConfig;
  proxy_Diagnostics : option Diagnostic;
  Plugins : list StratosPlugin;
  buildCNSIList : EchoContext → list CNSIRecord * option string;
  GetCNSIUserAndToken : string → string → option (ConnectedUser * TokenRecord);
  ListRelations : result (list Relation);
  proxy_PluginsStatus : option PluginsStatus;
}.

(** *** [updateEndpointsWithRelations] (info.go, lines 35-68) *)

(** Lines 50-62: the body of the loop over the relations, for one endpoint. *)
Definition addRelation (guid : string) (rels : EndpointRelations) (relation : Relation)
  : EndpointRelations :=
  if decide (Provider relation = guid) then
    {| Provides := Provides rels ++
                   [ {| Guid := Target relation;
                        RelationType := Relation_RelationType relation;
                        Metadata := Relation_Metadata relation |} ];
       Receives := Receives rels |}
  else if decide (Target relation = guid) then
    {| Provides := Provides rels;
       Receives := Receives rels ++
                   [ {| Guid := Provider relation;
                        RelationType := Relation_RelationType relation;
                        Metadata := Relation_Metadata relation |} ] |}
  else rels.

(** Lines 42-63: the body of the loop over the endpoints. *)
Definition attachRelations (relations : list Relation) (endpoint : EndpointDetail)
  : EndpointDetail :=
  let rels :=
    match Relations endpoint with
    | None => {| Provides := []; Receives := [] |}
    | Some rels => rels
    end in
  set_Relations endpoint (Some (foldl (addRelation (Endpoint_GUID endpoint)) rels relations)).

(** The two [range] loops update every [*EndpointDetail] of the map in
    place.  [getInfo] allocates one [EndpointDetail] per map entry (line
    119), so no two entries share a pointer and the update of one entry
    does not depend on the order of the iteration. *)
Definition updateEndpointsWithRelations (p : portalProxy)
    (endpoints : gmap string (gmap string EndpointDetail))
  : result (gmap string (gmap string EndpointDetail)) :=
  match ListRelations p with
  | Err err => Err ("Failed to fetch relations: " ++ err)
  | Ok relations => Ok (fmap (M := gmap string) (fmap (M := gmap string) (attachRelations relations)) endpoints)
  end.

(** *** [marshalEndpointMetadata] (info.go, lines 155-163) *)

Definition marshalEndpointMetadata (metadata : string) : EndpointMetadataValue :=
  if bool_decide (2 < String.length metadata)%nat
     && bool_decide (strings_Index metadata "{" = 0%Z)
  then
    MetadataMap (json_Unmarshal metadata).1
  else MetadataString metadata.

(** *** [getInfo] (info.go, lines 70-153) *)

(** Lines 102-113: one empty bucket per non-empty plugin type. *)
Definition initEndpoints (plugins : list StratosPlugin)
    (endpoints : gmap string (gmap string EndpointDetail))
  : gmap string (gmap string EndpointDetail) :=
  foldl (λ eps plugin,
           match GetEndpointPlugin plugin with
           | Err _ => eps
           | Ok endpointPlugin =>
               if bool_decide (0 < String.length (GetType endpointPlugin))%nat
               then <[GetType endpointPlugin := ∅]> eps
               else eps
           end) endpoints plugins.

(** Lines 119-132: the detail record of one CNSI. *)
Definition newEndpointDetail (p : portalProxy) (userGUID : string) (cnsi : CNSIRecord)
  : EndpointDetail :=
  match GetCNSIUserAndToken p (GUID cnsi) userGUID with
  | Some (cnsiUser, token) =>
      {| Endpoint_CNSIRecord := cnsi;
         EndpointMetadata := marshalEndpointMetadata (CNSI_Metadata cnsi);
         User := Some cnsiUser;
         Endpoint_Metadata := ∅;
         TokenMetadata := Token_Metadata token;
         SystemSharedToken := SystemShared token;
         Relations := None |}
  | None =>
      {| Endpoint_CNSIRecord := cnsi;
         EndpointMetadata := marshalEndpointMetadata (CNSI_Metadata cnsi);
         User := None;
         Endpoint_Metadata := ∅;
         TokenMetadata := "";
         SystemSharedToken := false;
         Relations := None |}
  end.

(** Lines 117-135.  [s.Endpoints[cnsiType]] of a missing key is the nil
    map, and the assignment [s.Endpoints[cnsiType][cnsi.GUID] = endpoint]
    into a nil map panics. *)
Fixpoint addEndpoints (p : portalProxy) (userGUID : string) (cnsiList : list CNSIRecord)
    (endpoints : gmap string (gmap string EndpointDetail))
  : run (gmap string (gmap string EndpointDetail)) :=
  match cnsiList with
  | [] => Return endpoints
  | cnsi :: cnsiList' =>
      match endpoints !! CNSIType cnsi with
      | None => Panic "assignment to entry in nil map"
      | Some endpointsOfType =>
          addEndpoints p userGUID cnsiList'
            (<[CNSIType cnsi := <[GUID cnsi := newEndpointDetail p userGUID cnsi]> endpointsOfType]>
               endpoints)
      end
  end.

(** Lines 143-148: every endpoint plugin updates the snapshot in turn. *)
Fixpoint updateMetadataAll (plugins : list StratosPlugin) (s : Info) (userGUID : string)
    (c : EchoContext) : run Info :=
  match plugins with
  | [] => Return s
  | plugin :: plugins' =>
      match GetEndpointPlugin plugin with
      | Ok endpointPlugin =>
          match UpdateMetadata endpointPlugin s userGUID c with
          | Return s' => updateMetadataAll plugins' s' userGUID c
          | Panic msg => Panic msg
          end
      | Err _ => updateMetadataAll plugins' s userGUID c
      end
  end.

(** Lines 88-100: the initial snapshot. *)
Definition initialInfo (p : portalProxy) (versions : Versions) (uaaUser : ConnectedUser) : Info :=
  let s := {| Info_Versions := versions;
              Info_User := uaaUser;
              Endpoints := ∅;
              Info_CloudFoundry := Config_CloudFoundryInfo p;
              Info_PluginConfig := Config_PluginConfig p;
              Diagnostics := None;
              Info_Plugins := None |} in
  if Admin uaaUser then set_Diagnostics s (proxy_Diagnostics p) else s.

(** Lines 137-140: the relations are attached, or the failure is logged and
    the endpoints stay as they are.  The first component is what
    [log.Warnf] wrote. *)
Definition attachOrWarn (p : portalProxy) (s : Info) : list string * Info :=
  match updateEndpointsWithRelations p (Endpoints s) with
  | Ok endpoints => ([], set_Endpoints s endpoints)
  | Err err =>
      (["Failed to add relations data to endpoints during info request: " ++ err], s)
  end.

(** [getInfo]: the warnings logged, and the snapshot or error returned,
    unless the request panics. *)
Definition getInfo (p : portalProxy) (c : EchoContext) : list string * run (result Info) :=
  match getVersionsData p with
  | Err _ => ([], Return (Err "Could not find database version"))
  | Ok versions =>
  match GetSessionStringValue p c "user_id" with
  | Err _ => ([], Return (Err "Could not find session user_id"))
  | Ok userGUID =>
  match GetUAAUser p userGUID with
  | Err _ => ([], Return (Err "Could not load session user data"))
  | Ok uaaUser =>
      let s := initialInfo p versions uaaUser in
      let s := set_Endpoints s (initEndpoints (Plugins p) (Endpoints s)) in
      let cnsiList := fst (buildCNSIList p c) in
      match addEndpoints p userGUID cnsiList (Endpoints s) with
      | Panic msg => ([], Panic msg)
      | Return endpoints =>
          let s := set_Endpoints s endpoints in
          let '(warnings, s) := attachOrWarn p s in
          match updateMetadataAll (Plugins p) s userGUID c with
          | Panic msg => (warnings, Panic msg)
          | Return s => (warnings, Return (Ok (set_Plugins s (proxy_PluginsStatus p))))
          end
      end
  end end end.

(** *** Vocabulary of the properties *)

(** The entry that a relation adds to its provider's [Provides]. *)
Definition providesEntry (relation : Relation) : EndpointRelation :=
  {| Guid := Target relation;
     RelationType := Relation_RelationType relation;
     Metadata := Relation_Metadata relation |}.

(** The entry that a relation adds to its target's [Receives]. *)
Definition receivesEntry (relation : Relation) : EndpointRelation :=
  {| Guid := Provider relation;
     RelationType := Relation_RelationType relation;
     Metadata := Relation_Metadata relation |}.

(** The endpoint stored under a type and a key of the snapshot's map. *)
Definition lookupEndpoint (endpoints : gmap string (gmap string EndpointDetail))
    (cnsiType guid : string) : option EndpointDetail :=
  endpoints !! cnsiType ≫= λ endpointsOfType, endpointsOfType !! guid.

(** An endpoint with the given identifier is in the map. *)
Definition endpointPresent (endpoints : gmap string (gmap string EndpointDetail)) (guid : string)
  : Prop :=
  ∃ cnsiType key endpoint,
    lookupEndpoint endpoints cnsiType key = Some endpoint ∧ Endpoint_GUID endpoint = guid.

(** Some registered plugin is an endpoint plugin with this non-empty type. *)
Definition registeredType (plugins : list StratosPlugin) (cnsiType : string) : Prop :=
  cnsiType ≠ ""
  ∧ ∃ plugin endpointPlugin,
      plugin ∈ plugins
      ∧ GetEndpointPlugin plugin = Ok endpointPlugin
      ∧ GetType endpointPlugin = cnsiType.

(** Every endpoint plugin of the list had its [UpdateMetadata] run, in
    order, each on the snapshot left by the one before. *)
Inductive PostProcessed (userGUID : string) (c : EchoContext)
  : list StratosPlugin → Info → Info → Prop :=
| PostProcessed_nil s : PostProcessed userGUID c [] s s
| PostProcessed_skip plugin plugins err s s' :
    GetEndpointPlugin plugin = Err err →
    PostProcessed userGUID c plugins s s' →
    PostProcessed userGUID c (plugin :: plugins) s s'
| PostProcessed_run plugin plugins endpointPlugin s s1 s' :
    GetEndpointPlugin plugin = Ok endpointPlugin →
    UpdateMetadata endpointPlugin s userGUID c = Return s1 →
    PostProcessed userGUID c plugins s1 s' →
    PostProcessed userGUID c (plugin :: plugins) s s'.

(** What the [UpdateMetadata] steps of the plugins guarantee about a part
    [part] of the snapshot: whenever a step returns, the part is as the
    step found it. *)
Definition pluginsKeep {A} (part : Info → A) (plugins : list StratosPlugin) : Prop :=
  ∀ plugin endpointPlugin s userGUID c s',
    plugin ∈ plugins →
    GetEndpointPlugin plugin = Ok endpointPlugin →
    UpdateMetadata endpointPlugin s userGUID c = Return s' →
    part s' = part s.

(** Every [UpdateMetadata] step of the plugins returns. *)
Definition pluginsReturn (plugins : list StratosPlugin) : Prop :=
  ∀ plugin endpointPlugin s userGUID c,
    plugin ∈ plugins →
    GetEndpointPlugin plugin = Ok endpointPlugin →
    ∃ s', UpdateMetadata endpointPlugin s userGUID c = Return s'.

(** The bucket keys of a snapshot. *)
Definition buckets (s : Info) : gset string := dom (Endpoints s).

(** The snapshot has a bucket for the type of every endpoint plugin of the
    list whose type is not empty, no bucket for the empty type, and no
    bucket but those of the plugins. *)
Definition pluginBuckets (plugins : list StratosPlugin) (s : Info) : Prop :=
  (∀ plugin endpointPlugin,
      plugin ∈ plugins →
      GetEndpointPlugin plugin = Ok endpointPlugin →
      GetType endpointPlugin ≠ "" →
      is_Some (Endpoints s !! GetType endpointPlugin))
  ∧ Endpoints s !! "" = None
  ∧ (∀ cnsiType, is_Some (Endpoints s !! cnsiType) → registeredType plugins cnsiType).

End Jetstream.

(** * The paginated-request helper (paginated-request-helpers.ts) *)

(** One endpoint's part of a [CFResponse]. *)
Record CFEndpointResponse (Resource : Type) := {
  total_pages : Z;
  resources : list Resource;
}.
Arguments total_pages {Resource} _.
Arguments resources {Resource} _.

(** [RequestOptions], of which the flattener sets [params]. *)
Record RequestOptions := {
  params : gmap string string;
}.

(** [IPaginationFlattener<T>].  [fetch] gives the response that the request
    built from the fetch parameters yields; [mergePages] is [None] when the
    call throws. *)
Record IPaginationFlattener (T FetchParams : Type) := {
  getTotalPages : T → Z;
  mergePages : list T → option T;
  fetch : FetchParams → T;
  buildFetchParams : Z → FetchParams;
}.
Arguments getTotalPages {T FetchParams} _ _.
Arguments mergePages {T FetchParams} _ _.
Arguments fetch {T FetchParams} _ _.
Arguments buildFetchParams {T FetchParams} _ _.

(** An element of the [requests] array of [flattenPagination]. *)
Inductive PageRequest (T FetchParams : Type) : Type :=
| FirstRequest (firstResData : T)
| FetchRequest (requestOptions : FetchParams).
Arguments FirstRequest {T FetchParams} firstResData.
Arguments FetchRequest {T FetchParams} requestOptions.

Section Pagination.

Context {Resource : Type}.

(** A [CFResponse] is an object keyed by endpoint guid. *)
Abbreviation CFResponse := (gmap string (CFEndpointResponse Resource)).

(** [Object.keys(res)].  The keys come in the order in which the map lists
    them, which stands for the key order of the object; the total of
    [getTotalPages] is the same for every order
    ([getTotalPages_scan_order]). *)
Definition Object_keys (res : CFResponse) : list string := (map_to_list res).*1.

(** The reducer of [getTotalPages] (lines 37-40). *)
Definition maxPages (res : CFResponse) (max : Z) (endpointGuid : string) : Z :=
  match res !! endpointGuid with
  | Some endpoint => if (max <? total_pages endpoint)%Z then total_pages endpoint else max
  | None => max
  end.

(** [CfAPIFlattener.getTotalPages] (lines 36-40). *)
Definition CfAPIFlattener_getTotalPages (res : CFResponse) : Z :=
  foldl (maxPages res) 0%Z (Object_keys res).

(** [CfAPIFlattener.mergePages] (lines 41-58). *)
Definition mergeEndpoint (endpointResponse newResData : CFResponse) (endpointGuid : string)
  : CFResponse :=
  match endpointResponse !! endpointGuid with
  | Some endpoint =>
      if bool_decide (0 < length (resources endpoint))%nat
      then alter (λ e, {| total_pages := total_pages e;
                          resources := resources e ++ resources endpoint |})
                 endpointGuid newResData
      else newResData
  | None => newResData
  end.

Definition CfAPIFlattener_mergePages (responses : list CFResponse) : option CFResponse :=
  match responses with
  | [] => None
  | newResData :: responses' =>
      let endpointGuids := Object_keys newResData in
      Some (foldl (λ newResData endpointResponse,
                     foldl (mergeEndpoint endpointResponse) newResData endpointGuids)
                  newResData responses')
  end.

(** [CfAPIFlattener.buildFetchParams] (lines 59-63), with
    [pageUrlParam = 'page']. *)
Definition CfAPIFlattener_buildFetchParams (requestOptions : RequestOptions) (i : Z)
  : RequestOptions :=
  {| params := <["page" := pretty i]> (params requestOptions) |}.

(** A [CfAPIFlattener] over the given [requestOptions]; [http] stands for
    [BaseFetcher.fetch] on requests whose response body is JSON.  A body
    that is not JSON, for which [BaseFetcher.fetch] gives [null], is the
    matter of [BaseFetcher_fetch] and [flattenFetched] below. *)
Definition CfAPIFlattener (http : RequestOptions → CFResponse) (requestOptions : RequestOptions)
  : IPaginationFlattener CFResponse RequestOptions :=
  {| getTotalPages := CfAPIFlattener_getTotalPages;
     mergePages := CfAPIFlattener_mergePages;
     fetch := http;
     buildFetchParams := CfAPIFlattener_buildFetchParams requestOptions |}.

End Pagination.

Section FlattenPagination.

Context {T FetchParams : Type}.

(** Lines 76-83: the [requests] array built from the first page: the first
    response itself, then one fetch for each [i] from [2] to [maxRequests]. *)
Definition flattenPagination_requests (firstResData : T)
    (flattener : IPaginationFlattener T FetchParams) : list (PageRequest T FetchParams) :=
  let maxRequests := getTotalPages flattener firstResData in
  FirstRequest firstResData ::
    ((λ i, FetchRequest (buildFetchParams flattener i)) <$> seqZ 2 (maxRequests - 1)).

(** What [forkJoin] collects from one element of [requests]. *)
Definition pageResponse (flattener : IPaginationFlattener T FetchParams)
    (request : PageRequest T FetchParams) : T :=
  match request with
  | FirstRequest firstResData => firstResData
  | FetchRequest requestOptions => fetch flattener requestOptions
  end.

(** The fetches that [flattenPagination] itself makes. *)
Definition additionalRequests (requests : list (PageRequest T FetchParams)) : list FetchParams :=
  omap (λ request, match request with
                   | FirstRequest _ => None
                   | FetchRequest requestOptions => Some requestOptions
                   end) requests.

(** [flattenPagination] (lines 67-91), from the value that [firstRequest]
    emits: the merged pages, [None] when merging throws. *)
Definition flattenPagination (firstResData : T)
    (flattener : IPaginationFlattener T FetchParams) : option T :=
  mergePages flattener (pageResponse flattener <$> flattenPagination_requests firstResData flattener).

End FlattenPagination.

(** * The [info] handler (info.go, lines 24-32) *)

Section InfoHandler.

Context {EchoContext Versions CloudFoundryInfo PluginConfig Diagnostic
         PluginsStatus RelationMetadata JSONObject : Type}.
Context `{!JSONDecoder JSONObject}.

(** [http.StatusForbidden] and [http.StatusOK]. *)
Definition StatusForbidden : Z := 403.
Definition StatusOK : Z := 200.

(** What the handler gives back to echo: the error built by
    [echo.NewHTTPError(code, message)], or the result of the call
    [c.JSON(code, s)], which writes [s] as the body of the response. *)
Inductive HandlerResult : Type :=
| NewHTTPError (code : Z) (message : string)
| JSON (code : Z)
       (s : @Info Versions CloudFoundryInfo PluginConfig Diagnostic PluginsStatus
              RelationMetadata JSONObject).

Definition info
    (p : @portalProxy EchoContext Versions CloudFoundryInfo PluginConfig Diagnostic
           PluginsStatus RelationMetadata JSONObject)
    (c : EchoContext) : list string * run HandlerResult :=
  match getInfo p c with
  | (warnings, Panic msg) => (warnings, Panic msg)
  | (warnings, Return (Err err)) => (warnings, Return (NewHTTPError StatusForbidden err))
  | (warnings, Return (Ok s)) => (warnings, Return (JSON StatusOK s))
  end.

(** What the relation step of [getInfo] does to one endpoint. *)
Definition relationStep (p : @portalProxy EchoContext Versions CloudFoundryInfo PluginConfig Diagnostic
                             PluginsStatus RelationMetadata JSONObject)
  : @EndpointDetail RelationMetadata JSONObject → @EndpointDetail RelationMetadata JSONObject :=
  match ListRelations p with
  | Ok relations => attachRelations relations
  | Err _ => id
  end.

End InfoHandler.

(** * Pages fetched by [BaseFetcher] (paginated-request-helpers.ts, lines 13-28) *)

Section FetchedPages.

Context {Resource : Type}.




End FetchedPages.

(** * The Helm release summary tab (helm-release-summary-tab.component.ts) *)

(** An element of a chart array.  [value] is what the property read gives:
    [None] is [undefined]. *)
Record ChartEntry := {
  name : string;
  value : option Z;
}.

(** [data.pods] of the release status: the pod count of every status, the
    number of ready containers and the number of containers. *)
Record PodsStatus := {
  status : gmap string Z;
  ready : Z;
  containers : Z;
}.

(** Lines 60-68: one point of the pods chart for every key of
    [data.pods.status].  The keys come in the order in which the map lists
    them, which stands for the key order of the object. *)
Definition podsChartData (pods : PodsStatus) : list ChartEntry :=
  (λ key, {| name := key; value := status pods !! key |}) <$> (map_to_list (status pods)).*1.

(** Lines 70-79. *)
Definition containersChartData (pods : PodsStatus) : list ChartEntry :=
  [ {| name := "Ready"; value := Some (ready pods) |};
    {| name := "Not Ready"; value := Some (containers pods - ready pods)%Z |} ].

(** [String.prototype.replace(pattern, replacement)] for a string pattern and
    a replacement without [$]: the first occurrence of the pattern is
    replaced, the other ones stay. *)
Fixpoint String_replace (s pattern replacement : string) : string :=
  if String.prefix pattern s
  then replacement ++ String.substring (String.length pattern)
                        (String.length s - String.length pattern) s
  else match s with
       | EmptyString => EmptyString
       | String a s' => String a (String_replace s' pattern replacement)
       end.

(** Lines 86-87: the URL of the request that deletes the release [guid]. *)
Definition deleteReleaseURL (guid : string) : string :=
  let endpointAndName := String_replace guid ":" "/" in
  "/pp/v1/helm/releases/" ++ endpointAndName.

(** * The endpoint details cell of a table
    (TableCellEndpointDetailsComponent, paginated-request-helpers.ts, lines
    113-166) *)

Section TableCell.

(** [EndpointModel], of which the setter reads [cnsi_type] and [sub_type];
    the class of a details component; a [ComponentRef]. *)
Context {EndpointModel DetailsComponentType ComponentRef : Type}.

(** The instance of [EndpointListDetailsComponent] that the cell shows, with
    the two fields that the setter writes. *)
Record EndpointListDetailsComponent := {
  details_row : option EndpointModel;
  isTable : bool;
}.

(** The fields of the component: [pRow], [cell] and [componentRef]. *)
Record TableCellEndpointDetailsComponent := {
  pRow : option EndpointModel;
  cell : option EndpointListDetailsComponent;
  componentRef : option ComponentRef;
}.

(** [entityCatalogueService.getEndpoint(row.cnsi_type, row.sub_type).entity]
    with its [listDetailsComponent]: the outer [None] is a missing entity,
    the inner one a missing details component. *)
Variable getEndpoint_entity : EndpointModel → option (option DetailsComponentType).

(** [endpointListHelper.createEndpointDetails]: the [componentRef] and the
    [component] of its result. *)
Variable createEndpointDetails :
  DetailsComponentType → option ComponentRef * option EndpointListDetailsComponent.

(** Lines 149-152. *)
Definition showRow (this : TableCellEndpointDetailsComponent) : TableCellEndpointDetailsComponent :=
  match cell this with
  | Some _ =>
      {| pRow := pRow this;
         cell := Some {| details_row := pRow this; isTable := true |};
         componentRef := componentRef this |}
  | None => this
  end.

(** The setter of [row] (lines 134-153): the component afterwards, and the
    details components that were created. *)
Definition set_row (this : TableCellEndpointDetailsComponent) (row : EndpointModel)
  : TableCellEndpointDetailsComponent * list DetailsComponentType :=
  let this := {| pRow := Some row; cell := cell this; componentRef := componentRef this |} in
  match getEndpoint_entity row with
  | None | Some None => (this, [])
  | Some (Some listDetailsComponent) =>
      match cell this with
      | None =>
          let res := createEndpointDetails listDetailsComponent in
          (showRow {| pRow := pRow this; cell := res.2; componentRef := res.1 |},
           [listDetailsComponent])
      | Some _ => (showRow this, [])
      end
  end.

(** The setter called for one row after the other, as the table does when
    its data changes: the component at the end, and every details component
    that was created on the way. *)
Definition set_rows (this : TableCellEndpointDetailsComponent) (rows : list EndpointModel)
  : TableCellEndpointDetailsComponent * list DetailsComponentType :=
  foldl (λ acc row, let res := set_row acc.1 row in (res.1, (acc.2 ++ res.2)%list)) (this, []) rows.

(** The getter of [row] (lines 155-157). *)
Definition get_row (this : TableCellEndpointDetailsComponent) : option EndpointModel :=
  pRow this.

End TableCell.

(** * A small deployment *)

(** The document with the members a, of value 1e999, and b, of value 2. *)
Definition overflowDocument : string :=
  "{" +:+ String "034"%char ("a" +:+ String "034"%char (":1e999,"
      +:+ String "034"%char ("b" +:+ String "034"%char ":2}"))).

(** A decoder that knows two documents, with the values as their JSON
    text: the empty object, and [overflowDocument], for which
    [json.Unmarshal] fills the map and reports that 1e999 does not fit a
    [float64].  Every other document is a syntax error, which leaves the
    destination nil. *)
#[global] Instance example_decoder : JSONDecoder (gmap string string) :=
  λ data,
    if decide (data = "{ }") then (Some ∅, None)
    else if decide (data = overflowDocument)
    then (Some {[ "a" := "null"; "b" := "2" ]},
          Some "json: cannot unmarshal number 1e999 into Go value of type float64")
    else (None, Some "invalid character").

Abbreviation ExampleInfo := (@Info unit unit unit string unit unit (gmap string string)).
Abbreviation ExamplePlugin :=
  (@StratosPlugin unit unit unit unit string unit unit (gmap string string)).
Abbreviation ExampleProxy :=
  (@portalProxy unit unit unit unit string unit unit (gmap string string)).

(** A plugin that owns an endpoint type and leaves the snapshot alone. *)
Definition plainPlugin (cnsiType : string) : ExamplePlugin :=
  {| GetEndpointPlugin :=
       Ok {| GetType := cnsiType; UpdateMetadata := λ s _ _, Return s |} |}.

(** A plugin whose post-processing writes the diagnostics of the snapshot. *)
Definition diagnosticsPlugin (cnsiType : string) : ExamplePlugin :=
  {| GetEndpointPlugin :=
       Ok {| GetType := cnsiType;
             UpdateMetadata := λ s _ _, Return (set_Diagnostics s (Some "written by plugin")) |} |}.

(** A plugin whose post-processing takes all the buckets away. *)
Definition droppingPlugin (cnsiType : string) : ExamplePlugin :=
  {| GetEndpointPlugin :=
       Ok {| GetType := cnsiType;
             UpdateMetadata := λ s _ _, Return (set_Endpoints s ∅) |} |}.

(** A plugin whose post-processing panics. *)
Definition panickingPlugin (cnsiType : string) : ExamplePlugin :=
  {| GetEndpointPlugin :=
       Ok {| GetType := cnsiType;
             UpdateMetadata := λ _ _ _, Panic "invalid memory address or nil pointer dereference" |} |}.

(** A plugin that is not an endpoint plugin. *)
Definition otherPlugin : ExamplePlugin :=
  {| GetEndpointPlugin := Err "not an endpoint plugin" |}.

Definition cnsiA : CNSIRecord := {| GUID := "A"; CNSI_Metadata := "{ }"; CNSIType := "cf" |}.
Definition cnsiB : CNSIRecord := {| GUID := "B"; CNSI_Metadata := ""; CNSIType := "k8s" |}.

Definition userU (admin : bool) : ConnectedUser := {| ConnectedUser_GUID := "U"; Admin := admin |}.

(** User U holds a token for endpoint A only. *)
Definition exampleProxy (admin : bool) (plugins : list ExamplePlugin)
    (cnsiList : list CNSIRecord) (relations : result (list (@Relation unit))) : ExampleProxy :=
  {| getVersionsData := Ok tt;
     GetSessionStringValue := λ _ key, if decide (key = "user_id") then Ok "U" else Err "no such key";
     GetUAAUser := λ userGUID, if decide (userGUID = "U") then Ok (userU admin) else Err "no such user";
     Config_CloudFoundryInfo := tt;
     Config_PluginConfig := tt;
     proxy_Diagnostics := Some "database statistics";
     Plugins := plugins;
     buildCNSIList := λ _, (cnsiList, None);
     GetCNSIUserAndToken := λ cnsiGUID userGUID,
       if decide (cnsiGUID = "A" ∧ userGUID = "U")
       then Some (userU false, {| Token_Metadata := "token of U"; SystemShared := false |})
       else None;
     ListRelations := relations;
     proxy_PluginsStatus := Some tt |}.

Definition relationAB : @Relation unit :=
  {| Provider := "A"; Target := "B"; Relation_RelationType := "deploys-to"; Relation_Metadata := tt |}.
Definition relationAA : @Relation unit :=
  {| Provider := "A"; Target := "A"; Relation_RelationType := "mirrors"; Relation_Metadata := tt |}.
Definition relationAX : @Relation unit :=
  {| Provider := "A"; Target := "X"; Relation_RelationType := "deploys-to"; Relation_Metadata := tt |}.

(** The endpoint map of the deployment before the relations are attached. *)
Definition endpointsAB : gmap string (gmap string (@EndpointDetail unit (gmap string string))) :=
  {[ "cf" := {[ "A" := newEndpointDetail (exampleProxy false [] [] (Ok [])) "U" cnsiA ]};
     "k8s" := {[ "B" := newEndpointDetail (exampleProxy false [] [] (Ok [])) "U" cnsiB ]} ]}.

Definition endpointsA : gmap string (gmap string (@EndpointDetail unit (gmap string string))) :=
  {[ "cf" := {[ "A" := newEndpointDetail (exampleProxy false [] [] (Ok [])) "U" cnsiA ]} ]}.


(** A first page of two endpoints, of three pages and of one page. *)
Definition firstPage : gmap string (CFEndpointResponse unit) :=
  {[ "A" := {| total_pages := 3; resources := [tt; tt] |};
     "B" := {| total_pages := 1; resources := [tt] |} ]}.

(** An older record of endpoint A, listed before the current one. *)
Definition cnsiA_old : CNSIRecord := {| GUID := "A"; CNSI_Metadata := "old"; CNSIType := "cf" |}.

(** A plugin whose post-processing clears the plugin status of the snapshot. *)
Definition statusPlugin (cnsiType : string) : ExamplePlugin :=
  {| GetEndpointPlugin :=
       Ok {| GetType := cnsiType;
             UpdateMetadata := λ s _ _, Return (set_Plugins s None) |} |}.

(** A proxy for a request without session. *)
Definition anonymousProxy : ExampleProxy :=
  {| getVersionsData := Ok tt;
     GetSessionStringValue := λ _ _, Err "securecookie: the value is not valid";
     GetUAAUser := λ _, Err "no such user";
     Config_CloudFoundryInfo := tt;
     Config_PluginConfig := tt;
     proxy_Diagnostics := None;
     Plugins := [];
     buildCNSIList := λ _, ([], None);
     GetCNSIUserAndToken := λ _ _, None;
     ListRelations := Ok [];
     proxy_PluginsStatus := None |}.

(** A table whose rows are endpoint types: cf has a details component,
    metrics has an entity without one, and no other type has an entity. *)
Definition example_entity (row : string) : option (option string) :=
  if decide (row = "cf") then Some (Some "cf details")
  else if decide (row = "metrics") then Some None
  else None.

Definition example_create (listDetailsComponent : string)
  : option nat * option (@EndpointListDetailsComponent string) :=
  (Some 1%nat, Some {| details_row := None; isTable := false |}).

Definition emptyCell : @TableCellEndpointDetailsComponent string nat :=
  {| pRow := None; cell := None; componentRef := None |}.

(** * Properties *)

Local Open Scope list_scope.

(** ** The relation-attachment step *)

Section Relations.

Context {EchoContext Versions CloudFoundryInfo PluginConfig Diagnostic
         PluginsStatus RelationMetadata JSONObject : Type}.
Context `{!JSONDecoder JSONObject}.

Abbreviation Endpoint := (@EndpointDetail RelationMetadata JSONObject).
Abbreviation Proxy := (@portalProxy EchoContext Versions CloudFoundryInfo PluginConfig Diagnostic
                     PluginsStatus RelationMetadata JSONObject).

Lemma addRelation_Provides guid rels (relations : list (@Relation RelationMetadata)) :
  Provides (foldl (addRelation guid) rels relations)
  = Provides rels ++ (providesEntry <$> filter (λ r, Provider r = guid) relations).
Proof.
  revert rels. induction relations as [|r relations IH]; intros rels; simpl.
  { by rewrite app_nil_r. }
  rewrite IH. unfold addRelation. rewrite filter_cons.
  destruct (decide (Provider r = guid)); simpl.
  - by rewrite <- app_assoc.
  - by destruct (decide (Target r = guid)).
Qed.

Lemma addRelation_Receives guid rels (relations : list (@Relation RelationMetadata)) :
  Receives (foldl (addRelation guid) rels relations)
  = Receives rels
    ++ (receivesEntry <$> filter (λ r, Provider r ≠ guid ∧ Target r = guid) relations).
Proof.
  revert rels. induction relations as [|r relations IH]; intros rels; simpl.
  { by rewrite app_nil_r. }
  rewrite IH. unfold addRelation. rewrite filter_cons.
  destruct (decide (Provider r = guid)) as [Hp|Hp]; simpl.
  - rewrite decide_False; [done | tauto].
  - destruct (decide (Target r = guid)) as [Ht|Ht]; simpl.
    + rewrite decide_True; [|done]. by rewrite <- app_assoc.
    + rewrite decide_False; [done | tauto].
Qed.

Lemma attachRelations_GUID relations (endpoint : Endpoint) :
  Endpoint_GUID (attachRelations relations endpoint) = Endpoint_GUID endpoint.
Proof. reflexivity. Qed.

(** The lists of an endpoint that came without relations, after the step. *)
Lemma attachRelations_fresh relations (endpoint : Endpoint) :
  Relations endpoint = None →
  Relations (attachRelations relations endpoint)
  = Some {| Provides := providesEntry <$>
                          filter (λ r, Provider r = Endpoint_GUID endpoint) relations;
            Receives := receivesEntry <$>
                          filter (λ r, Provider r ≠ Endpoint_GUID endpoint
                                       ∧ Target r = Endpoint_GUID endpoint) relations |}.
Proof.
  intros Hnil. unfold attachRelations. rewrite Hnil. simpl. f_equal.
  pose proof (addRelation_Provides (Endpoint_GUID endpoint)
                {| Provides := []; Receives := [] |} relations) as HP.
  pose proof (addRelation_Receives (Endpoint_GUID endpoint)
                {| Provides := []; Receives := [] |} relations) as HR.
  destruct (foldl _ _ relations) as [ps rs]. simpl in *. by subst.
Qed.

(** A relation that names the endpoint neither as provider nor as target
    leaves its lists alone. *)
Lemma attachRelations_unrelated l1 r l2 (endpoint : Endpoint) :
  Provider r ≠ Endpoint_GUID endpoint →
  Target r ≠ Endpoint_GUID endpoint →
  attachRelations (l1 ++ r :: l2) endpoint = attachRelations (l1 ++ l2) endpoint.
Proof.
  intros Hp Ht. unfold attachRelations. do 2 f_equal.
  rewrite !foldl_app. simpl. f_equal.
  unfold addRelation.
  destruct (decide (Provider r = Endpoint_GUID endpoint)); [done|].
  by destruct (decide (Target r = Endpoint_GUID endpoint)).
Qed.

Lemma lookupEndpoint_fmap (f : Endpoint → Endpoint) endpoints cnsiType key :
  lookupEndpoint (fmap (M := gmap string) (fmap (M := gmap string) f) endpoints) cnsiType key
  = f <$> lookupEndpoint endpoints cnsiType key.
Proof.
  unfold lookupEndpoint. rewrite lookup_fmap.
  destruct (endpoints !! cnsiType) as [m|]; simpl; [|done].
  by rewrite lookup_fmap.
Qed.

(** The step returns what [ListRelations] allows, and changes each endpoint
    on its own. *)
Lemma updateEndpointsWithRelations_Ok (p : Proxy) relations endpoints :
  ListRelations p = Ok relations →
  ∃ endpoints',
    updateEndpointsWithRelations p endpoints = Ok endpoints'
    ∧ ∀ cnsiType key,
        lookupEndpoint endpoints' cnsiType key
        = attachRelations relations <$> lookupEndpoint endpoints cnsiType key.
Proof.
  intros HL. unfold updateEndpointsWithRelations. rewrite HL.
  eexists; split; [done|]. intros. apply lookupEndpoint_fmap.
Qed.

(** The lists of an endpoint after the step, whatever it had before. *)
Lemma attachRelations_lists relations (endpoint : Endpoint) :
  ∃ rels,
    Relations (attachRelations relations endpoint) = Some rels
    ∧ (∀ r, r ∈ relations → Provider r = Endpoint_GUID endpoint →
            providesEntry r ∈ Provides rels)
    ∧ (∀ r, r ∈ relations → Provider r ≠ Endpoint_GUID endpoint →
            Target r = Endpoint_GUID endpoint → receivesEntry r ∈ Receives rels).
Proof.
  unfold attachRelations. eexists. split; [reflexivity|].
  rewrite addRelation_Provides, addRelation_Receives.
  split; intros r Hin **; apply elem_of_app; right;
    apply list_elem_of_fmap; exists r; (split; [done|]);
    by apply list_elem_of_filter.
Qed.

(** A self-relation adds one entry to [Provides] and none to [Receives]:
    the target branch of line 56 is the [else] of the provider test. *)
Lemma self_relation_provides_only (l1 l2 : list (@Relation RelationMetadata)) r
    (endpoint : Endpoint) rels0 :
  Provider r = Endpoint_GUID endpoint →
  Target r = Endpoint_GUID endpoint →
  let without := foldl (addRelation (Endpoint_GUID endpoint)) rels0 (l1 ++ l2) in
  let with_r := foldl (addRelation (Endpoint_GUID endpoint)) rels0 (l1 ++ r :: l2) in
  Receives with_r = Receives without
  ∧ length (Provides with_r) = S (length (Provides without)).
Proof.
  intros Hp Ht. simpl.
  rewrite !addRelation_Provides, !addRelation_Receives.
  rewrite !filter_app, !filter_cons.
  rewrite (decide_True (P := Provider r = Endpoint_GUID endpoint)) by done.
  rewrite (decide_False (P := Provider r ≠ Endpoint_GUID endpoint ∧ _)) by tauto.
  split; [done|].
  rewrite !fmap_app, !length_app, fmap_cons, length_cons, !length_fmap. lia.
Qed.

(** C5. For every relation R whose provider A and target B are distinct
    endpoints of the map, after the relation-attachment step A's
    [Provides] has an entry with peer B and R's type and metadata, and B's
    [Receives] has an entry with peer A and R's type and metadata. *)
Theorem relation_attached_to_both_ends (p : Proxy) relations R endpoints
    typeA keyA endpointA typeB keyB endpointB :
  ListRelations p = Ok relations →
  R ∈ relations →
  Provider R ≠ Target R →
  lookupEndpoint endpoints typeA keyA = Some endpointA →
  Endpoint_GUID endpointA = Provider R →
  lookupEndpoint endpoints typeB keyB = Some endpointB →
  Endpoint_GUID endpointB = Target R →
  ∃ endpoints' endpointA' endpointB' relsA relsB,
    updateEndpointsWithRelations p endpoints = Ok endpoints'
    ∧ lookupEndpoint endpoints' typeA keyA = Some endpointA'
    ∧ Relations endpointA' = Some relsA
    ∧ {| Guid := Target R; RelationType := Relation_RelationType R;
         Metadata := Relation_Metadata R |} ∈ Provides relsA
    ∧ lookupEndpoint endpoints' typeB keyB = Some endpointB'
    ∧ Relations endpointB' = Some relsB
    ∧ {| Guid := Provider R; RelationType := Relation_RelationType R;
         Metadata := Relation_Metadata R |} ∈ Receives relsB.
Proof.
  intros HL Hin Hne HA HgA HB HgB.
  destruct (updateEndpointsWithRelations_Ok p relations endpoints HL) as (eps' & Hup & Hlook).
  destruct (attachRelations_lists relations endpointA) as (relsA & HrA & HpA & _).
  destruct (attachRelations_lists relations endpointB) as (relsB & HrB & _ & HpB).
  exists eps', (attachRelations relations endpointA), (attachRelations relations endpointB),
    relsA, relsB.
  split; [done|]. rewrite !Hlook, HA, HB. simpl.
  split_and!; try done.
  - by apply (HpA R).
  - apply (HpB R); [done| |done]. congruence.
Qed.

(** C2, as the code has it. A relation naming an endpoint that is not in
    the map does not make the step fail.  It adds nothing to an endpoint
    that is neither its provider nor its target, so these endpoints' lists
    are what they are without it, and it is dropped altogether when both
    of its ends are missing.  The end that is present keeps its entry:
    the provider's [Provides] names the missing target, the target's
    [Receives] names the missing provider. *)
Theorem dangling_relation_attached_to_present_end (p p' : Proxy) l1 r l2 endpoints :
  ListRelations p = Ok (l1 ++ r :: l2) →
  ListRelations p' = Ok (l1 ++ l2) →
  ¬ endpointPresent endpoints (Provider r) ∨ ¬ endpointPresent endpoints (Target r) →
  ∃ endpoints' endpoints'',
    updateEndpointsWithRelations p endpoints = Ok endpoints'
    ∧ updateEndpointsWithRelations p' endpoints = Ok endpoints''
    ∧ (∀ cnsiType key endpoint,
         lookupEndpoint endpoints cnsiType key = Some endpoint →
         Endpoint_GUID endpoint ≠ Provider r →
         Endpoint_GUID endpoint ≠ Target r →
         lookupEndpoint endpoints' cnsiType key = lookupEndpoint endpoints'' cnsiType key)
    ∧ (¬ endpointPresent endpoints (Provider r) →
       ¬ endpointPresent endpoints (Target r) →
       endpoints' = endpoints'')
    ∧ (∀ cnsiType key endpoint,
         lookupEndpoint endpoints cnsiType key = Some endpoint →
         Endpoint_GUID endpoint = Provider r →
         ∃ endpoint' rels,
           lookupEndpoint endpoints' cnsiType key = Some endpoint'
           ∧ Relations endpoint' = Some rels
           ∧ providesEntry r ∈ Provides rels)
    ∧ (∀ cnsiType key endpoint,
         lookupEndpoint endpoints cnsiType key = Some endpoint →
         Endpoint_GUID endpoint = Target r →
         Provider r ≠ Target r →
         ∃ endpoint' rels,
           lookupEndpoint endpoints' cnsiType key = Some endpoint'
           ∧ Relations endpoint' = Some rels
           ∧ receivesEntry r ∈ Receives rels).
Proof.
  intros HL HL' Hdangling.
  destruct (updateEndpointsWithRelations_Ok p _ endpoints HL) as (eps' & Hup & Hlook).
  destruct (updateEndpointsWithRelations_Ok p' _ endpoints HL') as (eps'' & Hup' & Hlook').
  exists eps', eps''. split_and!; try done.
  - intros t k e He Hp Ht. rewrite Hlook, Hlook', He. simpl.
    f_equal. by apply attachRelations_unrelated.
  - intros Hp Ht.
    unfold updateEndpointsWithRelations in Hup, Hup'. rewrite HL in Hup. rewrite HL' in Hup'.
    injection Hup as <-. injection Hup' as <-.
    apply map_fmap_ext. intros t m Hm.
    apply map_fmap_ext. intros k e He.
    assert (lookupEndpoint endpoints t k = Some e) as Hle.
    { unfold lookupEndpoint. by rewrite Hm. }
    apply attachRelations_unrelated.
    + intros Heq. apply Hp. by exists t, k, e.
    + intros Heq. apply Ht. by exists t, k, e.
  - intros t k e He Hg.
    destruct (attachRelations_lists (l1 ++ r :: l2) e) as (rels & Hr & HP & _).
    exists (attachRelations (l1 ++ r :: l2) e), rels.
    rewrite Hlook, He. split_and!; try done.
    apply HP; [|done]. apply elem_of_app. right. apply list_elem_of_here.
  - intros t k e He Hg Hne.
    destruct (attachRelations_lists (l1 ++ r :: l2) e) as (rels & Hr & _ & HR).
    exists (attachRelations (l1 ++ r :: l2) e), rels.
    rewrite Hlook, He. split_and!; try done.
    apply HR; [|congruence|done]. apply elem_of_app. right. apply list_elem_of_here.
Qed.

End Relations.

(** ** The snapshot built by [getInfo] *)

Section Snapshot.

Context {EchoContext Versions CloudFoundryInfo PluginConfig Diagnostic
         PluginsStatus RelationMetadata JSONObject : Type}.
Context `{!JSONDecoder JSONObject}.

Abbreviation Snapshot := (@Info Versions CloudFoundryInfo PluginConfig Diagnostic
                            PluginsStatus RelationMetadata JSONObject).
Abbreviation Plugin := (@StratosPlugin EchoContext Versions CloudFoundryInfo PluginConfig
                          Diagnostic PluginsStatus RelationMetadata JSONObject).
Abbreviation Portal := (@portalProxy EchoContext Versions CloudFoundryInfo PluginConfig
                          Diagnostic PluginsStatus RelationMetadata JSONObject).
Abbreviation EndpointsMap := (gmap string (gmap string (@EndpointDetail RelationMetadata JSONObject))).

Lemma String_length_pos (s : string) : (0 < String.length s)%nat ↔ s ≠ "".
Proof. destruct s; simpl; split; intros; try done; lia. Qed.

Lemma initEndpoints_lookup (plugins : list Plugin) (endpoints : EndpointsMap) cnsiType :
  is_Some (initEndpoints plugins endpoints !! cnsiType)
  ↔ is_Some (endpoints !! cnsiType) ∨ registeredType plugins cnsiType.
Proof.
  revert endpoints. induction plugins as [|plugin plugins IH]; intros endpoints; simpl.
  { split; [by left|]. intros [?|(_ & ? & ? & Hin & _)]; [done|]. by apply elem_of_nil in Hin. }
  rewrite IH. clear IH. unfold registeredType.
  destruct (GetEndpointPlugin plugin) as [ep|err] eqn:Hep.
  - case_bool_decide as Hlen; rewrite String_length_pos in Hlen.
    + rewrite lookup_insert_is_Some'. split.
      * intros [[Heq|?]|(Hne & pl & ep' & Hin & ?)]; [right|by left|right].
        -- subst. split; [done|]. exists plugin, ep. split_and!; [left|done|done].
        -- split; [done|]. exists pl, ep'. split; [by right|done].
      * intros [?|(Hne & pl & ep' & Hin & Hep' & Hty)]; [by left; right|].
        apply elem_of_cons in Hin as [->|Hin].
        -- left; left. congruence.
        -- right. split; [done|]. by exists pl, ep'.
    + split.
      * intros [?|(Hne & pl & ep' & Hin & ?)]; [by left|right].
        split; [done|]. exists pl, ep'. split; [by right|done].
      * intros [?|(Hne & pl & ep' & Hin & Hep' & Hty)]; [by left|].
        apply elem_of_cons in Hin as [->|Hin].
        -- exfalso. apply Hne. rewrite Hep in Hep'. injection Hep' as <-.
           subst. by apply dec_stable.
        -- right. split; [done|]. by exists pl, ep'.
  - split.
    + intros [?|(Hne & pl & ep' & Hin & ?)]; [by left|right].
      split; [done|]. exists pl, ep'. split; [by right|done].
    + intros [?|(Hne & pl & ep' & Hin & Hep' & Hty)]; [by left|].
      apply elem_of_cons in Hin as [->|Hin]; [congruence|].
      right. split; [done|]. by exists pl, ep'.
Qed.

(** The insertion loop keeps the bucket keys, and returns only if every
    endpoint finds the bucket of its type. *)
Lemma addEndpoints_Return (p : Portal) userGUID cnsiList (endpoints endpoints' : EndpointsMap) :
  addEndpoints p userGUID cnsiList endpoints = Return endpoints' →
  dom endpoints' = dom endpoints
  ∧ Forall (λ cnsi, is_Some (endpoints !! CNSIType cnsi)) cnsiList.
Proof.
  revert endpoints. induction cnsiList as [|cnsi cnsiList IH]; intros endpoints; simpl.
  { intros [= <-]. by split. }
  destruct (endpoints !! CNSIType cnsi) as [bucket|] eqn:Hb; [|done].
  intros Hrest. apply IH in Hrest as [Hdom Hall].
  assert (dom (<[CNSIType cnsi:=<[GUID cnsi:=newEndpointDetail p userGUID cnsi]> bucket]> endpoints)
          = dom endpoints) as Hins.
  { rewrite dom_insert_L. apply subseteq_union_1_L, singleton_subseteq_l.
    by apply elem_of_dom_2 in Hb. }
  split; [by rewrite Hdom|].
  constructor; [by rewrite Hb|].
  eapply Forall_impl; [exact Hall|]. intros x. simpl.
  rewrite <- !elem_of_dom. by rewrite Hins.
Qed.

Lemma addEndpoints_total (p : Portal) userGUID cnsiList (endpoints : EndpointsMap) :
  Forall (λ cnsi, is_Some (endpoints !! CNSIType cnsi)) cnsiList →
  ∃ endpoints', addEndpoints p userGUID cnsiList endpoints = Return endpoints'.
Proof.
  revert endpoints. induction cnsiList as [|cnsi cnsiList IH]; intros endpoints Hall; simpl.
  { by eexists. }
  apply Forall_cons in Hall as [[bucket Hb] Hall]. rewrite Hb.
  apply IH. eapply Forall_impl; [exact Hall|]. intros x. simpl.
  rewrite <- !elem_of_dom, dom_insert_L. set_solver.
Qed.

Lemma addEndpoints_Panic (p : Portal) userGUID cnsiList (endpoints : EndpointsMap) :
  Exists (λ cnsi, endpoints !! CNSIType cnsi = None) cnsiList →
  addEndpoints p userGUID cnsiList endpoints = Panic "assignment to entry in nil map".
Proof.
  intros Hex.
  destruct (addEndpoints p userGUID cnsiList endpoints) as [eps'|msg] eqn:Hrun.
  - apply addEndpoints_Return in Hrun as [_ Hall].
    apply Exists_exists in Hex as (cnsi & Hin & Hnone).
    rewrite Forall_forall in Hall. apply Hall in Hin. rewrite Hnone in Hin.
    by destruct Hin.
  - clear Hex. revert endpoints Hrun.
    induction cnsiList as [|cnsi cnsiList IH]; intros endpoints; simpl; [done|].
    destruct (endpoints !! CNSIType cnsi); [apply IH | congruence].
Qed.

Lemma initialInfo_Endpoints (p : Portal) versions uaaUser :
  Endpoints (initialInfo p versions uaaUser) = ∅.
Proof. unfold initialInfo. by destruct (Admin uaaUser). Qed.

Lemma initialInfo_Diagnostics (p : Portal) versions uaaUser :
  Diagnostics (initialInfo p versions uaaUser)
  = if Admin uaaUser then proxy_Diagnostics p else None.
Proof. unfold initialInfo. by destruct (Admin uaaUser). Qed.

(** The relation step touches the [Endpoints] of the snapshot only, and
    keeps their keys. *)
Lemma attachOrWarn_frame (p : Portal) (s s' : Snapshot) warnings :
  attachOrWarn p s = (warnings, s') →
  Diagnostics s' = Diagnostics s ∧ buckets s' = buckets s.
Proof.
  unfold attachOrWarn, updateEndpointsWithRelations, buckets.
  destruct (ListRelations p); intros [= <- <-]; simpl; [|done].
  split; [done|]. by rewrite dom_fmap_L.
Qed.

(** The loop over the plugins, read as a relation. *)
Lemma updateMetadataAll_PostProcessed (plugins : list Plugin) (s s' : Snapshot) userGUID c :
  updateMetadataAll plugins s userGUID c = Return s' ↔ PostProcessed userGUID c plugins s s'.
Proof.
  split.
  - revert s. induction plugins as [|plugin plugins IH]; intros s; simpl.
    { intros [= <-]. constructor. }
    destruct (GetEndpointPlugin plugin) as [ep|err] eqn:Hep.
    + destruct (UpdateMetadata ep s userGUID c) as [s1|msg] eqn:Hrun; [|done].
      intros Hrest. eapply PostProcessed_run; eauto.
    + intros Hrest. eapply PostProcessed_skip; eauto.
  - induction 1 as [s|plugin plugins err s s' Hep _ IH
                    |plugin plugins ep s s1 s' Hep Hrun _ IH]; simpl.
    + done.
    + by rewrite Hep.
    + by rewrite Hep, Hrun.
Qed.

Lemma PostProcessed_keep {A} (part : Snapshot → A) (plugins : list Plugin) userGUID c
    (s s' : Snapshot) :
  pluginsKeep part plugins →
  PostProcessed userGUID c plugins s s' →
  part s' = part s.
Proof.
  intros Hkeep Hpp.
  induction Hpp as [s|plugin plugins err s s' Hep _ IH
                    |plugin plugins ep s s1 s' Hep Hrun _ IH].
  - done.
  - apply IH. intros pl ep' ? ? ? ? Hin. apply Hkeep. by right.
  - rewrite IH.
    + eapply Hkeep; [|exact Hep|exact Hrun]. by left.
    + intros pl ep' ? ? ? ? Hin. apply Hkeep. by right.
Qed.

Lemma updateMetadataAll_total (plugins : list Plugin) (s : Snapshot) userGUID c :
  pluginsReturn plugins →
  ∃ s', updateMetadataAll plugins s userGUID c = Return s'.
Proof.
  revert s. induction plugins as [|plugin plugins IH]; intros s Hret; simpl.
  { by eexists. }
  assert (pluginsReturn plugins) as Hret'.
  { intros pl ep' ? ? ? Hin. apply Hret. by right. }
  destruct (GetEndpointPlugin plugin) as [ep|err] eqn:Hep; [|by apply IH].
  destruct (Hret plugin ep s userGUID c) as [s1 ->]; [by left|done|].
  by apply IH.
Qed.

(** [getInfo] once the version, the session user and its data are found. *)
Lemma getInfo_authorized (p : Portal) c versions userGUID uaaUser :
  getVersionsData p = Ok versions →
  GetSessionStringValue p c "user_id" = Ok userGUID →
  GetUAAUser p userGUID = Ok uaaUser →
  getInfo p c
  = match addEndpoints p userGUID (buildCNSIList p c).1 (initEndpoints (Plugins p) ∅) with
    | Panic msg => ([], Panic msg)
    | Return endpoints =>
        let '(warnings, s) :=
          attachOrWarn p (set_Endpoints (initialInfo p versions uaaUser) endpoints) in
        match updateMetadataAll (Plugins p) s userGUID c with
        | Panic msg => (warnings, Panic msg)
        | Return s => (warnings, Return (Ok (set_Plugins s (proxy_PluginsStatus p))))
        end
    end.
Proof.
  intros Hv Hu Hd. unfold getInfo. rewrite Hv, Hu, Hd. simpl.
  by rewrite initialInfo_Endpoints.
Qed.

(** The stages that a request went through when [getInfo] returns a
    snapshot. *)
Lemma getInfo_Return_Ok (p : Portal) c warnings (s : Snapshot) :
  getInfo p c = (warnings, Return (Ok s)) →
  ∃ versions userGUID uaaUser endpoints s0 s1,
    getVersionsData p = Ok versions
    ∧ GetSessionStringValue p c "user_id" = Ok userGUID
    ∧ GetUAAUser p userGUID = Ok uaaUser
    ∧ addEndpoints p userGUID (buildCNSIList p c).1 (initEndpoints (Plugins p) ∅)
      = Return endpoints
    ∧ attachOrWarn p (set_Endpoints (initialInfo p versions uaaUser) endpoints)
      = (warnings, s0)
    ∧ updateMetadataAll (Plugins p) s0 userGUID c = Return s1
    ∧ s = set_Plugins s1 (proxy_PluginsStatus p).
Proof.
  intros Hrun.
  destruct (getVersionsData p) as [versions|] eqn:Hv;
    [|unfold getInfo in Hrun; rewrite Hv in Hrun; done].
  destruct (GetSessionStringValue p c "user_id") as [userGUID|] eqn:Hu;
    [|unfold getInfo in Hrun; rewrite Hv, Hu in Hrun; done].
  destruct (GetUAAUser p userGUID) as [uaaUser|] eqn:Hd;
    [|unfold getInfo in Hrun; rewrite Hv, Hu, Hd in Hrun; done].
  rewrite (getInfo_authorized p c versions userGUID uaaUser Hv Hu Hd) in Hrun.
  destruct (addEndpoints _ _ _ _) as [endpoints|] eqn:Hadd; [|done].
  destruct (attachOrWarn _ _) as [w s0] eqn:Hatt.
  destruct (updateMetadataAll _ _ _ _) as [s1|] eqn:Hpost; [|done].
  injection Hrun as <- <-.
  by exists versions, userGUID, uaaUser, endpoints, s0, s1.
Qed.

Lemma initEndpoints_registered (plugins : list Plugin) cnsiType :
  is_Some (initEndpoints plugins (∅ : EndpointsMap) !! cnsiType)
  ↔ registeredType plugins cnsiType.
Proof.
  rewrite initEndpoints_lookup, lookup_empty. split; [|by right].
  intros [[? [=]]|?]; done.
Qed.

Lemma pluginBuckets_keys (plugins : list Plugin) (s : Snapshot) :
  (∀ cnsiType, is_Some (Endpoints s !! cnsiType) ↔ registeredType plugins cnsiType) →
  pluginBuckets plugins s.
Proof.
  intros Hkeys. split_and!.
  - intros plugin ep Hin Hep Hne. apply Hkeys. split; [done|]. by exists plugin, ep.
  - apply eq_None_not_Some. rewrite Hkeys. by intros [? _].
  - intros k. by rewrite Hkeys.
Qed.

(** C6, as the code has it. When [getInfo] returns a snapshot, the snapshot
    that it handed to the plugins has a bucket for the type of every
    registered endpoint plugin whose type is not empty, whatever endpoints
    are listed, and no other bucket: a plugin with an empty type adds none.
    The plugins' [UpdateMetadata] steps run after that, and the snapshot
    returned has these buckets provided none of the steps adds or removes a
    bucket. *)
Theorem getInfo_buckets (p : Portal) c warnings (s : Snapshot) :
  getInfo p c = (warnings, Return (Ok s)) →
  ∃ userGUID s0 s1,
    pluginBuckets (Plugins p) s0
    ∧ PostProcessed userGUID c (Plugins p) s0 s1
    ∧ s = set_Plugins s1 (proxy_PluginsStatus p)
    ∧ (pluginsKeep buckets (Plugins p) → pluginBuckets (Plugins p) s).
Proof.
  intros Hrun.
  apply getInfo_Return_Ok in Hrun
    as (versions & userGUID & uaaUser & endpoints & s0 & s1
        & _ & _ & _ & Hadd & Hatt & Hpost & ->).
  apply addEndpoints_Return in Hadd as [Hdom _].
  apply attachOrWarn_frame in Hatt as [_ Hatt].
  apply updateMetadataAll_PostProcessed in Hpost.
  assert (∀ cnsiType, is_Some (Endpoints s0 !! cnsiType)
                      ↔ registeredType (Plugins p) cnsiType) as Hkeys.
  { intros k. rewrite <- initEndpoints_registered, <- !elem_of_dom.
    rewrite <- Hdom. unfold buckets in *. simpl in *. by rewrite Hatt. }
  exists userGUID, s0, s1. split_and!; try done.
  - by apply pluginBuckets_keys.
  - intros Hkeep. apply (PostProcessed_keep buckets) in Hpost; [|done].
    apply pluginBuckets_keys. intros k. rewrite <- Hkeys, <- !elem_of_dom.
    unfold buckets in *. simpl. by rewrite Hpost.
Qed.

(** C7. Once the version and the user are found, [getInfo] panics on the
    write into the nil map as soon as one listed endpoint has a type that
    is not the non-empty type of a registered endpoint plugin; so it
    returns only when every listed endpoint has such a type. *)
Theorem getInfo_needs_registered_types (p : Portal) c versions userGUID uaaUser :
  getVersionsData p = Ok versions →
  GetSessionStringValue p c "user_id" = Ok userGUID →
  GetUAAUser p userGUID = Ok uaaUser →
  (Exists (λ cnsi, ¬ registeredType (Plugins p) (CNSIType cnsi)) (buildCNSIList p c).1 →
   getInfo p c = ([], Panic "assignment to entry in nil map"))
  ∧ (∀ warnings r,
       getInfo p c = (warnings, Return r) →
       Forall (λ cnsi, registeredType (Plugins p) (CNSIType cnsi)) (buildCNSIList p c).1).
Proof.
  intros Hv Hu Hd.
  rewrite (getInfo_authorized p c versions userGUID uaaUser Hv Hu Hd).
  split.
  - intros Hex. rewrite addEndpoints_Panic; [done|].
    eapply Exists_impl; [exact Hex|]. intros cnsi Hnot. simpl in *.
    apply eq_None_not_Some. by rewrite initEndpoints_registered.
  - intros warnings r.
    destruct (addEndpoints _ _ _ _) as [endpoints|] eqn:Hadd; [|done].
    intros _. apply addEndpoints_Return in Hadd as [_ Hall].
    eapply Forall_impl; [exact Hall|]. intros cnsi. simpl.
    by rewrite initEndpoints_registered.
Qed.

(** Every listed endpoint has its detail record in the map that the
    insertion loop returns (the record of the last listed endpoint with the
    same type and identifier). *)
Lemma addEndpoints_details (p : Portal) userGUID cnsiList (endpoints endpoints' : EndpointsMap) :
  addEndpoints p userGUID cnsiList endpoints = Return endpoints' →
  ∀ cnsi, cnsi ∈ cnsiList →
    ∃ cnsi', cnsi' ∈ cnsiList
             ∧ CNSIType cnsi' = CNSIType cnsi ∧ GUID cnsi' = GUID cnsi
             ∧ lookupEndpoint endpoints' (CNSIType cnsi) (GUID cnsi)
               = Some (newEndpointDetail p userGUID cnsi').
Proof.
  assert (∀ cnsiList (endpoints endpoints' : EndpointsMap) cnsiType guid endpoint,
            addEndpoints p userGUID cnsiList endpoints = Return endpoints' →
            lookupEndpoint endpoints cnsiType guid = Some endpoint →
            lookupEndpoint endpoints' cnsiType guid = Some endpoint
            ∨ ∃ cnsi', cnsi' ∈ cnsiList ∧ CNSIType cnsi' = cnsiType ∧ GUID cnsi' = guid
                       ∧ lookupEndpoint endpoints' cnsiType guid
                         = Some (newEndpointDetail p userGUID cnsi')) as Hlater.
  { clear. intros cnsiList. induction cnsiList as [|c0 cnsiList IH];
      intros endpoints endpoints' t g e; simpl.
    { intros [= <-] ?. by left. }
    destruct (endpoints !! CNSIType c0) as [bucket|] eqn:Hb; [|done].
    intros Hrest Hlook.
    destruct (decide (CNSIType c0 = t ∧ GUID c0 = g)) as [[<- <-]|Hother].
    - destruct (IH _ _ (CNSIType c0) (GUID c0) (newEndpointDetail p userGUID c0) Hrest)
        as [Hkept|(c' & Hin & ? & ? & ?)].
      + unfold lookupEndpoint. rewrite lookup_insert_eq. simpl. by rewrite lookup_insert_eq.
      + right. exists c0. split_and!; try done. by left.
      + right. exists c'. split_and!; try done. by right.
    - destruct (IH _ _ t g e Hrest) as [Hkept|(c' & Hin & ? & ? & ?)].
      + unfold lookupEndpoint in *.
        destruct (decide (CNSIType c0 = t)) as [<-|Hne].
        * rewrite lookup_insert_eq. simpl. rewrite Hb in Hlook. simpl in Hlook.
          rewrite lookup_insert_ne; [done|]. intros ?. by apply Hother.
        * by rewrite lookup_insert_ne.
      + by left.
      + right. exists c'. split_and!; try done. by right. }
  revert endpoints. induction cnsiList as [|c0 cnsiList IH]; intros endpoints Hrun cnsi Hin.
  { by apply elem_of_nil in Hin. }
  simpl in Hrun.
  destruct (endpoints !! CNSIType c0) as [bucket|] eqn:Hb; [|done].
  apply elem_of_cons in Hin as [->|Hin].
  - destruct (Hlater _ _ _ (CNSIType c0) (GUID c0) (newEndpointDetail p userGUID c0) Hrun)
      as [Hkept|(c' & Hin & ? & ? & ?)].
    + unfold lookupEndpoint. rewrite lookup_insert_eq. simpl. by rewrite lookup_insert_eq.
    + exists c0. split_and!; try done. by left.
    + exists c'. split_and!; try done. by right.
  - destruct (IH _ Hrun cnsi Hin) as (c' & Hin' & ? & ? & ?).
    exists c'. split_and!; try done. by right.
Qed.

(** C8, as the code has it. When listing the relations fails, [getInfo]
    logs one warning that carries the failure and does not return an error.
    It goes on to the plugins with a snapshot that holds, for every listed
    endpoint, the detail record with the credential data built before, the
    endpoints being left without relations.  It returns a snapshot provided
    every [UpdateMetadata] step returns, and that snapshot holds these
    endpoints provided the steps leave [Endpoints] alone. *)
Theorem getInfo_relations_failure_logged (p : Portal) c versions userGUID uaaUser endpoints err :
  getVersionsData p = Ok versions →
  GetSessionStringValue p c "user_id" = Ok userGUID →
  GetUAAUser p userGUID = Ok uaaUser →
  addEndpoints p userGUID (buildCNSIList p c).1 (initEndpoints (Plugins p) ∅) = Return endpoints →
  ListRelations p = Err err →
  (getInfo p c).1
  = ["Failed to add relations data to endpoints during info request: "
     +:+ "Failed to fetch relations: " +:+ err]
  ∧ (∀ e, (getInfo p c).2 ≠ Return (Err e))
  ∧ ∃ s0 : Snapshot,
      (∀ cnsi, cnsi ∈ (buildCNSIList p c).1 →
         ∃ endpoint,
           lookupEndpoint (Endpoints s0) (CNSIType cnsi) (GUID cnsi) = Some endpoint
           ∧ Endpoint_CNSIRecord endpoint ∈ (buildCNSIList p c).1
           ∧ CNSIType (Endpoint_CNSIRecord endpoint) = CNSIType cnsi
           ∧ Endpoint_GUID endpoint = GUID cnsi
           ∧ (User endpoint, TokenMetadata endpoint, SystemSharedToken endpoint)
             = match GetCNSIUserAndToken p (GUID cnsi) userGUID with
               | Some (cnsiUser, token) =>
                   (Some cnsiUser, Token_Metadata token, SystemShared token)
               | None => (None, "", false)
               end
           ∧ Relations endpoint = None)
      ∧ (∀ s1, updateMetadataAll (Plugins p) s0 userGUID c = Return s1 →
               (getInfo p c).2 = Return (Ok (set_Plugins s1 (proxy_PluginsStatus p))))
      ∧ (pluginsReturn (Plugins p) →
         ∃ s, (getInfo p c).2 = Return (Ok s)
              ∧ (pluginsKeep Endpoints (Plugins p) → Endpoints s = Endpoints s0)).
Proof.
  intros Hv Hu Hd Hadd HL.
  rewrite (getInfo_authorized p c versions userGUID uaaUser Hv Hu Hd), Hadd.
  unfold attachOrWarn, updateEndpointsWithRelations. rewrite HL.
  set (s0 := set_Endpoints (initialInfo p versions uaaUser) endpoints).
  assert (∀ cnsi, cnsi ∈ (buildCNSIList p c).1 →
            ∃ endpoint,
              lookupEndpoint (Endpoints s0) (CNSIType cnsi) (GUID cnsi) = Some endpoint
              ∧ Endpoint_CNSIRecord endpoint ∈ (buildCNSIList p c).1
              ∧ CNSIType (Endpoint_CNSIRecord endpoint) = CNSIType cnsi
              ∧ Endpoint_GUID endpoint = GUID cnsi
              ∧ (User endpoint, TokenMetadata endpoint, SystemSharedToken endpoint)
                = match GetCNSIUserAndToken p (GUID cnsi) userGUID with
                  | Some (cnsiUser, token) =>
                      (Some cnsiUser, Token_Metadata token, SystemShared token)
                  | None => (None, "", false)
                  end
              ∧ Relations endpoint = None) as Hdetails.
  { intros cnsi Hin.
    destruct (addEndpoints_details p userGUID _ _ _ Hadd cnsi Hin)
      as (cnsi' & Hin' & Hty & Hguid & Hlook).
    exists (newEndpointDetail p userGUID cnsi'). split; [exact Hlook|].
    unfold Endpoint_GUID, newEndpointDetail. rewrite Hguid.
    by destruct (GetCNSIUserAndToken p (GUID cnsi) userGUID) as [[]|]. }
  destruct (updateMetadataAll (Plugins p) s0 userGUID c) as [s1|msg] eqn:Hpost; simpl.
  - split; [done|]. split; [done|]. exists s0. split; [exact Hdetails|]. split.
    + intros s. rewrite Hpost. by intros [= <-].
    + intros _. eexists. split; [done|].
      intros Hkeep. simpl. apply updateMetadataAll_PostProcessed in Hpost.
      by apply (PostProcessed_keep Endpoints _ _ _ _ _ Hkeep Hpost).
  - split; [done|]. split; [done|]. exists s0. split; [exact Hdetails|]. split.
    + intros s. by rewrite Hpost.
    + intros Hret. destruct (updateMetadataAll_total (Plugins p) s0 userGUID c Hret) as [s1 Hs1].
      by rewrite Hpost in Hs1.
Qed.

(** C3, as the code has it. For a user that is not an admin, the snapshot
    that [getInfo] hands to the plugins has no [Diagnostics]; the plugins'
    [UpdateMetadata] steps run after that, and the snapshot returned has no
    [Diagnostics] provided none of these steps writes the field. *)
Theorem getInfo_non_admin_diagnostics (p : Portal) c warnings (s : Snapshot) userGUID uaaUser :
  GetSessionStringValue p c "user_id" = Ok userGUID →
  GetUAAUser p userGUID = Ok uaaUser →
  Admin uaaUser = false →
  getInfo p c = (warnings, Return (Ok s)) →
  ∃ s0 s1,
    Diagnostics s0 = None
    ∧ PostProcessed userGUID c (Plugins p) s0 s1
    ∧ s = set_Plugins s1 (proxy_PluginsStatus p)
    ∧ (pluginsKeep Diagnostics (Plugins p) → Diagnostics s = None).
Proof.
  intros Hu Hd Hadmin Hrun.
  apply getInfo_Return_Ok in Hrun
    as (versions & userGUID' & uaaUser' & endpoints & s0 & s1
        & _ & Hu' & Hd' & _ & Hatt & Hpost & ->).
  rewrite Hu in Hu'. injection Hu' as <-. rewrite Hd in Hd'. injection Hd' as <-.
  apply attachOrWarn_frame in Hatt as [Hdiag _].
  simpl in Hdiag. rewrite initialInfo_Diagnostics, Hadmin in Hdiag.
  apply updateMetadataAll_PostProcessed in Hpost.
  exists s0, s1. split_and!; try done.
  intros Hkeep. simpl. by rewrite (PostProcessed_keep Diagnostics _ _ _ _ _ Hkeep Hpost).
Qed.

(** C4, as the code has it. When the [UpdateMetadata] step of every
    registered plugin returns, [getInfo] returns a snapshot once the user
    is found and the endpoints are inserted: every endpoint plugin has its
    step run, in order, each on the snapshot left by the one before, and
    the endpoint and relation data built before are in the snapshot
    returned as far as the steps leave [Endpoints] alone. *)
Theorem getInfo_returning_plugins_all_run (p : Portal) c versions userGUID uaaUser endpoints :
  getVersionsData p = Ok versions →
  GetSessionStringValue p c "user_id" = Ok userGUID →
  GetUAAUser p userGUID = Ok uaaUser →
  addEndpoints p userGUID (buildCNSIList p c).1 (initEndpoints (Plugins p) ∅) = Return endpoints →
  pluginsReturn (Plugins p) →
  ∃ warnings s0 s1,
    attachOrWarn p (set_Endpoints (initialInfo p versions uaaUser) endpoints) = (warnings, s0)
    ∧ PostProcessed userGUID c (Plugins p) s0 s1
    ∧ getInfo p c = (warnings, Return (Ok (set_Plugins s1 (proxy_PluginsStatus p))))
    ∧ (pluginsKeep Endpoints (Plugins p) → Endpoints s1 = Endpoints s0).
Proof.
  intros Hv Hu Hd Hadd Hret.
  rewrite (getInfo_authorized p c versions userGUID uaaUser Hv Hu Hd), Hadd.
  destruct (attachOrWarn _ _) as [warnings s0] eqn:Hatt.
  destruct (updateMetadataAll_total (Plugins p) s0 userGUID c Hret) as [s1 Hpost].
  rewrite Hpost. apply updateMetadataAll_PostProcessed in Hpost.
  exists warnings, s0, s1. split_and!; try done.
  intros Hkeep. by apply (PostProcessed_keep Endpoints _ _ _ _ _ Hkeep Hpost).
Qed.

(** A panic of an [UpdateMetadata] step is the outcome of the loop: the
    plugins after it are not run. *)
Lemma updateMetadataAll_Panic (plugin : Plugin) plugins endpointPlugin (s : Snapshot)
    userGUID c msg :
  GetEndpointPlugin plugin = Ok endpointPlugin →
  UpdateMetadata endpointPlugin s userGUID c = Panic msg →
  updateMetadataAll (plugin :: plugins) s userGUID c = Panic msg.
Proof. intros Hep Hrun. simpl. by rewrite Hep, Hrun. Qed.

End Snapshot.

(** ** [marshalEndpointMetadata] *)

Section Marshal.

Context {JSONObject : Type} `{!JSONDecoder JSONObject}.

Lemma strings_Index_from_eq i s substr :
  strings_Index_from i s substr
  = if String.prefix substr s then i
    else match s with
         | EmptyString => (-1)%Z
         | String _ s' => strings_Index_from (i + 1) s' substr
         end.
Proof. by destruct s. Qed.

Lemma strings_Index_from_bound i s substr :
  strings_Index_from i s substr = (-1)%Z ∨ (i ≤ strings_Index_from i s substr)%Z.
Proof.
  revert i. induction s as [|a s IH]; intros i; rewrite strings_Index_from_eq.
  - destruct (String.prefix substr ""); [right; lia | by left].
  - destruct (String.prefix substr (String a s)); [right; lia|].
    destruct (IH (i + 1)%Z) as [->|Hle]; [by left | right; lia].
Qed.

(** [strings.Index(s, "{") == 0] says that [s] starts with an opening brace. *)
Lemma strings_Index_brace s :
  strings_Index s "{" = 0%Z ↔ String.get 0 s = Some "{"%char.
Proof.
  unfold strings_Index. rewrite strings_Index_from_eq.
  destruct s as [|a s]; [done|].
  change (String.prefix "{" (String a s))
    with (if Ascii.ascii_dec "{" a then String.prefix "" s else false).
  change (String.get 0 (String a s)) with (Some a).
  destruct (Ascii.ascii_dec "{" a) as [<-|Hne].
  - by destruct s.
  - split.
    + intros Hz. destruct (strings_Index_from_bound (0 + 1) s "{") as [Hb|Hb]; lia.
    + intros [= ->]. done.
Qed.

(** C10, as the code has it. [marshalEndpointMetadata] returns the map that
    [json.Unmarshal] leaves in [anyJSON] for [metadata], whether or not the
    call reports an error, exactly when [metadata] is longer than two bytes
    and starts with an opening brace, and [metadata] itself in every other
    case.  So it returns the decoded map when decoding succeeds, and the
    nil map when decoding fails without having filled the map. *)
Theorem marshalEndpointMetadata_cases (metadata : string) :
  ((2 < String.length metadata)%nat ∧ String.get 0 metadata = Some "{"%char →
   marshalEndpointMetadata metadata = MetadataMap (json_Unmarshal metadata).1
   ∧ ((json_Unmarshal metadata).1 = None → marshalEndpointMetadata metadata = MetadataMap None))
  ∧ (¬ ((2 < String.length metadata)%nat ∧ String.get 0 metadata = Some "{"%char) →
     marshalEndpointMetadata metadata = MetadataString metadata).
Proof.
  unfold marshalEndpointMetadata. rewrite <- strings_Index_brace.
  split.
  - intros [Hlen Hidx]. rewrite !bool_decide_eq_true_2 by done. simpl.
    split; [done|]. by intros ->.
  - intros Hnot. destruct (decide (2 < String.length metadata)%nat) as [Hlen|Hlen].
    + rewrite (bool_decide_eq_false_2 (strings_Index metadata "{" = 0%Z)) by tauto.
      by rewrite andb_false_r.
    + by rewrite (bool_decide_eq_false_2 (2 < String.length metadata)%nat).
Qed.

End Marshal.

(** ** The paginated requests *)

Section PageRequests.

Context {Resource : Type}.

Abbreviation Response := (gmap string (CFEndpointResponse Resource)).

Lemma Object_keys_elem_of (res : Response) endpointGuid :
  endpointGuid ∈ Object_keys res ↔ is_Some (res !! endpointGuid).
Proof.
  unfold Object_keys. rewrite list_elem_of_fmap. split.
  - intros ([k e] & -> & Hin). apply elem_of_map_to_list in Hin. by exists e.
  - intros [e He]. exists (endpointGuid, e). split; [done|]. by apply elem_of_map_to_list.
Qed.

(** The reduction keeps the largest page count met so far. *)
Lemma foldl_maxPages (res : Response) keys (max : Z) :
  let r := foldl (maxPages res) max keys in
  (max ≤ r)%Z
  ∧ (∀ endpointGuid endpoint,
       endpointGuid ∈ keys → res !! endpointGuid = Some endpoint →
       (total_pages endpoint ≤ r)%Z)
  ∧ (r = max
     ∨ ∃ endpointGuid endpoint,
         endpointGuid ∈ keys ∧ res !! endpointGuid = Some endpoint
         ∧ r = total_pages endpoint).
Proof.
  revert max. induction keys as [|k keys IH]; intros max; simpl.
  { split_and!; [lia | by intros ? ? ?%elem_of_nil | by left]. }
  destruct (IH (maxPages res max k)) as (Hge & Hall & Hatt). clear IH.
  assert (max ≤ maxPages res max k)%Z as Hstep.
  { unfold maxPages. destruct (res !! k) as [e|]; [|lia].
    destruct (Z.ltb_spec max (total_pages e)); lia. }
  split_and!.
  - lia.
  - intros g e [->|Hin]%elem_of_cons He; [|by eapply Hall].
    etrans; [|exact Hge]. unfold maxPages. rewrite He.
    destruct (Z.ltb_spec max (total_pages e)); lia.
  - destruct Hatt as [Heq|(g & e & Hin & He & Heq)].
    + assert (maxPages res max k = max
              ∨ ∃ e, res !! k = Some e ∧ maxPages res max k = total_pages e) as Hcase.
      { unfold maxPages. destruct (res !! k) as [e|]; [|by left].
        destruct (Z.ltb_spec max (total_pages e)); [right; by exists e | by left]. }
      destruct Hcase as [Hc|(e & He & Hc)]; [left; congruence|].
      right. exists k, e. split_and!; [by left|done|congruence].
    + right. exists g, e. split_and!; [by right|done|done].
Qed.

(** X13. The total does not depend on the order in which the endpoints are
    scanned: the reduction over any arrangement of the keys of the response
    gives the total of [getTotalPages]. *)
Lemma getTotalPages_scan_order (res : Response) keys :
  keys ≡ₚ Object_keys res →
  foldl (maxPages res) 0%Z keys = CfAPIFlattener_getTotalPages res.
Proof.
  intros Hperm. unfold CfAPIFlattener_getTotalPages.
  destruct (foldl_maxPages res keys 0) as (Hge1 & Hall1 & Hatt1).
  destruct (foldl_maxPages res (Object_keys res) 0) as (Hge2 & Hall2 & Hatt2).
  simpl in *. apply Z.le_antisymm.
  - destruct Hatt1 as [->|(g & e & Hin & He & ->)]; [done|].
    eapply Hall2; [|done]. by rewrite <- Hperm.
  - destruct Hatt2 as [->|(g & e & Hin & He & ->)]; [done|].
    eapply Hall1; [|done]. by rewrite Hperm.
Qed.

Lemma additionalRequests_fetches {T FetchParams} (firstResData : T)
    (build : Z → FetchParams) (pages : list Z) :
  additionalRequests (FirstRequest firstResData :: ((λ i, FetchRequest (build i)) <$> pages))
  = (build <$> pages).
Proof.
  unfold additionalRequests. simpl.
  induction pages as [|i pages IH]; simpl; [done|]. f_equal. exact IH.
Qed.

(** C9, as the code has it. [getTotalPages] returns the largest
    [total_pages] of the endpoints of the first page, and 0 when there is
    no endpoint or no positive count.  [flattenPagination] fetches the
    pages 2 to that total and joins them to the first response, which it
    does not request again: it makes no request of its own when the total
    is at most 1, and the responses it merges number the total, or one
    when the total is 0. *)
Theorem flattenPagination_page_requests (res : Response) http requestOptions :
  let flattener := CfAPIFlattener http requestOptions in
  let maxRequests := CfAPIFlattener_getTotalPages res in
  let requests := flattenPagination_requests res flattener in
  (0 ≤ maxRequests)%Z
  ∧ (∀ endpointGuid endpoint,
       res !! endpointGuid = Some endpoint → (total_pages endpoint ≤ maxRequests)%Z)
  ∧ (maxRequests = 0%Z
     ∨ ∃ endpointGuid endpoint,
         res !! endpointGuid = Some endpoint ∧ total_pages endpoint = maxRequests)
  ∧ (res = ∅ → maxRequests = 0%Z)
  ∧ additionalRequests requests
    = (CfAPIFlattener_buildFetchParams requestOptions <$> seqZ 2 (maxRequests - 1))
  ∧ Z.of_nat (length requests) = Z.max 1 maxRequests
  ∧ ((maxRequests ≤ 1)%Z → additionalRequests requests = []).
Proof.
  intros flattener maxRequests requests.
  destruct (foldl_maxPages res (Object_keys res) 0) as (Hge & Hall & Hatt).
  fold (CfAPIFlattener_getTotalPages res) in Hge, Hall, Hatt. fold maxRequests in Hge, Hall, Hatt.
  assert (additionalRequests requests
          = (CfAPIFlattener_buildFetchParams requestOptions <$> seqZ 2 (maxRequests - 1)))
    as Hadditional.
  { apply additionalRequests_fetches. }
  split_and!.
  - done.
  - intros g e He. eapply Hall; [|done]. apply Object_keys_elem_of. by exists e.
  - destruct Hatt as [?|(g & e & _ & He & ->)]; [by left|right]. by exists g, e.
  - intros ->. subst maxRequests. done.
  - done.
  - unfold requests, flattenPagination_requests. simpl. fold maxRequests.
    rewrite length_fmap, length_seqZ. lia.
  - intros Hle. rewrite Hadditional.
    replace (seqZ 2 (maxRequests - 1)) with (@nil Z); [done|].
    symmetry. apply length_zero_iff_nil. rewrite length_seqZ. lia.
Qed.

End PageRequests.

(** * Further properties *)

(** ** More on the relation-attachment step *)

Section RelationsMore.

Context {EchoContext Versions CloudFoundryInfo PluginConfig Diagnostic
         PluginsStatus RelationMetadata JSONObject : Type}.
Context `{!JSONDecoder JSONObject}.

Abbreviation Endpoint' := (@EndpointDetail RelationMetadata JSONObject).
Abbreviation Proxy' := (@portalProxy EchoContext Versions CloudFoundryInfo PluginConfig Diagnostic
                          PluginsStatus RelationMetadata JSONObject).

Lemma attachRelations_app (l1 l2 : list (@Relation RelationMetadata)) (endpoint : Endpoint') :
  attachRelations (l1 ++ l2) endpoint = attachRelations l2 (attachRelations l1 endpoint).
Proof. unfold attachRelations. simpl. by rewrite foldl_app. Qed.

(** X1. Attaching the relations of a list [l1 ++ l2] is attaching those of
    [l1] and then those of [l2]: the step appends to the lists that an
    endpoint already has.  So running it again on its own result adds every
    entry a second time. *)
Theorem updateEndpointsWithRelations_compose (p1 p2 p : Proxy') l1 l2 endpoints :
  ListRelations p1 = Ok l1 →
  ListRelations p2 = Ok l2 →
  ListRelations p = Ok (l1 ++ l2) →
  ∃ endpoints1,
    updateEndpointsWithRelations p1 endpoints = Ok endpoints1
    ∧ updateEndpointsWithRelations p2 endpoints1 = updateEndpointsWithRelations p endpoints.
Proof.
  intros H1 H2 H. unfold updateEndpointsWithRelations. rewrite H1, H2, H.
  eexists. split; [done|]. f_equal.
  rewrite <- map_fmap_compose. apply map_fmap_ext. intros cnsiType bucket _. simpl.
  rewrite <- map_fmap_compose. apply map_fmap_ext. intros key endpoint _. simpl.
  by rewrite attachRelations_app.
Qed.

(** X2. The step neither adds nor removes an endpoint, and of an endpoint it
    changes the relations only: the CNSI record, the metadata, the user and
    the token data stay, and the relations are set (not nil) afterwards. *)
Theorem updateEndpointsWithRelations_frame (p : Proxy') endpoints endpoints' :
  updateEndpointsWithRelations p endpoints = Ok endpoints' →
  dom endpoints' = dom endpoints
  ∧ (∀ cnsiType key,
       lookupEndpoint endpoints' cnsiType key = None
       ↔ lookupEndpoint endpoints cnsiType key = None)
  ∧ (∀ cnsiType key endpoint',
       lookupEndpoint endpoints' cnsiType key = Some endpoint' →
       ∃ endpoint,
         lookupEndpoint endpoints cnsiType key = Some endpoint
         ∧ Endpoint_CNSIRecord endpoint' = Endpoint_CNSIRecord endpoint
         ∧ EndpointMetadata endpoint' = EndpointMetadata endpoint
         ∧ User endpoint' = User endpoint
         ∧ Endpoint_Metadata endpoint' = Endpoint_Metadata endpoint
         ∧ TokenMetadata endpoint' = TokenMetadata endpoint
         ∧ SystemSharedToken endpoint' = SystemSharedToken endpoint
         ∧ is_Some (Relations endpoint')).
Proof.
  unfold updateEndpointsWithRelations.
  destruct (ListRelations p) as [relations|]; [|done]. intros [= <-].
  split_and!.
  - by rewrite dom_fmap_L.
  - intros t k. rewrite lookupEndpoint_fmap. by rewrite fmap_None.
  - intros t k e'. rewrite lookupEndpoint_fmap. intros (e & He & ->)%fmap_Some.
    exists e. by split_and!.
Qed.

Lemma filter_either_length {A} (P Q : A → Prop) `{!∀ x, Decision (P x)} `{!∀ x, Decision (Q x)}
    (l : list A) :
  (length (filter P l) + length (filter (λ x, ¬ P x ∧ Q x) l))%nat
  = length (filter (λ x, P x ∨ Q x) l).
Proof.
  induction l as [|x l IH]; [done|]. rewrite !filter_cons.
  destruct (decide (P x)) as [HP|HP].
  - rewrite decide_False by tauto. rewrite decide_True by tauto. simpl. lia.
  - destruct (decide (Q x)) as [HQ|HQ].
    + rewrite decide_True by tauto. rewrite decide_True by tauto. simpl. lia.
    + rewrite decide_False by tauto. rewrite decide_False by tauto. done.
Qed.

(** X3. An endpoint that comes without relations gets one entry for every
    relation that names it as provider or as target, and no other entry:
    the entries of its two lists number the relations that name it.  A
    relation never gives two entries to one endpoint. *)
Theorem updateEndpointsWithRelations_entry_count (p : Proxy') relations endpoints
    cnsiType key endpoint :
  ListRelations p = Ok relations →
  lookupEndpoint endpoints cnsiType key = Some endpoint →
  Relations endpoint = None →
  ∃ endpoints' endpoint' rels,
    updateEndpointsWithRelations p endpoints = Ok endpoints'
    ∧ lookupEndpoint endpoints' cnsiType key = Some endpoint'
    ∧ Relations endpoint' = Some rels
    ∧ (length (Provides rels) + length (Receives rels))%nat
      = length (filter (λ r, Provider r = Endpoint_GUID endpoint
                             ∨ Target r = Endpoint_GUID endpoint) relations).
Proof.
  intros HL He Hnil.
  destruct (updateEndpointsWithRelations_Ok p relations endpoints HL) as (eps' & Hup & Hlook).
  eexists eps', _, _. split; [done|]. rewrite Hlook, He. simpl. split; [done|].
  split; [by apply attachRelations_fresh|]. simpl.
  rewrite !length_fmap. apply filter_either_length.
Qed.

End RelationsMore.

(** ** More on the snapshot of [getInfo] *)

Section SnapshotMore.

Context {EchoContext Versions CloudFoundryInfo PluginConfig Diagnostic
         PluginsStatus RelationMetadata JSONObject : Type}.
Context `{!JSONDecoder JSONObject}.

Abbreviation Snapshot' := (@Info Versions CloudFoundryInfo PluginConfig Diagnostic
                             PluginsStatus RelationMetadata JSONObject).
Abbreviation Plugin' := (@StratosPlugin EchoContext Versions CloudFoundryInfo PluginConfig
                           Diagnostic PluginsStatus RelationMetadata JSONObject).
Abbreviation Portal' := (@portalProxy EchoContext Versions CloudFoundryInfo PluginConfig
                           Diagnostic PluginsStatus RelationMetadata JSONObject).
Abbreviation EndpointsMap' :=
  (gmap string (gmap string (@EndpointDetail RelationMetadata JSONObject))).

(** The buckets made for the plugins are empty. *)
Lemma initEndpoints_bucket (plugins : list Plugin') (endpoints : EndpointsMap') cnsiType bucket :
  initEndpoints plugins endpoints !! cnsiType = Some bucket →
  bucket = ∅ ∨ endpoints !! cnsiType = Some bucket.
Proof.
  revert endpoints. induction plugins as [|plugin plugins IH]; intros endpoints; simpl.
  { by right. }
  intros [->|Hstep]%IH; [by left|].
  destruct (GetEndpointPlugin plugin) as [ep|]; [|by right].
  case_bool_decide; [|by right].
  apply lookup_insert_Some in Hstep as [[_ <-]|[_ ?]]; [by left | by right].
Qed.

Lemma lookupEndpoint_init_empty (plugins : list Plugin') cnsiType key :
  lookupEndpoint (initEndpoints plugins (∅ : EndpointsMap')) cnsiType key = None.
Proof.
  unfold lookupEndpoint.
  destruct (initEndpoints plugins ∅ !! cnsiType) as [bucket|] eqn:Hb; [|done].
  apply initEndpoints_bucket in Hb as [->|Hb]; [done|]. by rewrite lookup_empty in Hb.
Qed.

Lemma lookupEndpoint_insert (endpoints : EndpointsMap') bucket cnsiType guid endpoint t k :
  endpoints !! cnsiType = Some bucket →
  lookupEndpoint (<[cnsiType := <[guid := endpoint]> bucket]> endpoints) t k
  = if decide (cnsiType = t ∧ guid = k) then Some endpoint else lookupEndpoint endpoints t k.
Proof.
  intros Hb. unfold lookupEndpoint.
  destruct (decide (cnsiType = t)) as [<-|Hne].
  - rewrite lookup_insert_eq, Hb. simpl.
    destruct (decide (guid = k)) as [<-|Hk].
    + rewrite lookup_insert_eq. by rewrite decide_True.
    + rewrite lookup_insert_ne by done. rewrite decide_False by tauto. done.
  - rewrite lookup_insert_ne by done. rewrite decide_False by tauto. done.
Qed.

(** Whatever the insertion loop leaves in the map was there before or is
    the detail record of a listed endpoint, under its type and identifier. *)
Lemma addEndpoints_entries (p : Portal') userGUID cnsiList (endpoints endpoints' : EndpointsMap') :
  addEndpoints p userGUID cnsiList endpoints = Return endpoints' →
  ∀ t k endpoint,
    lookupEndpoint endpoints' t k = Some endpoint →
    lookupEndpoint endpoints t k = Some endpoint
    ∨ ∃ cnsi, cnsi ∈ cnsiList ∧ CNSIType cnsi = t ∧ GUID cnsi = k
              ∧ endpoint = newEndpointDetail p userGUID cnsi.
Proof.
  revert endpoints. induction cnsiList as [|cnsi cnsiList IH]; intros endpoints; simpl.
  { intros [= <-] t k e He. by left. }
  destruct (endpoints !! CNSIType cnsi) as [bucket|] eqn:Hb; [|done].
  intros Hrest t k e He.
  destruct (IH _ Hrest t k e He) as [Hnow|(c & Hin & ? & ? & ?)].
  - rewrite (lookupEndpoint_insert _ _ _ _ _ _ _ Hb) in Hnow.
    case_decide as Heq; [|by left].
    destruct Heq as [<- <-]. injection Hnow as <-.
    right. exists cnsi. split_and!; try done. by left.
  - right. exists c. split_and!; try done. by right.
Qed.

(** The endpoints listed later do not touch an entry that none of them
    names. *)
Lemma addEndpoints_untouched (p : Portal') userGUID cnsiList (endpoints endpoints' : EndpointsMap') t k :
  addEndpoints p userGUID cnsiList endpoints = Return endpoints' →
  (∀ cnsi, cnsi ∈ cnsiList → ¬ (CNSIType cnsi = t ∧ GUID cnsi = k)) →
  lookupEndpoint endpoints' t k = lookupEndpoint endpoints t k.
Proof.
  revert endpoints. induction cnsiList as [|cnsi cnsiList IH]; intros endpoints; simpl.
  { by intros [= <-] _. }
  destruct (endpoints !! CNSIType cnsi) as [bucket|] eqn:Hb; [|done].
  intros Hrest Hnone. rewrite (IH _ Hrest).
  - rewrite (lookupEndpoint_insert _ _ _ _ _ _ _ Hb).
    rewrite decide_False; [done|]. apply Hnone. by left.
  - intros c Hin. apply Hnone. by right.
Qed.

Lemma addEndpoints_app (p : Portal') userGUID l1 l2 (endpoints : EndpointsMap') :
  addEndpoints p userGUID (l1 ++ l2) endpoints
  = match addEndpoints p userGUID l1 endpoints with
    | Return endpoints1 => addEndpoints p userGUID l2 endpoints1
    | Panic msg => Panic msg
    end.
Proof.
  revert endpoints. induction l1 as [|cnsi l1 IH]; intros endpoints; simpl; [done|].
  by destruct (endpoints !! CNSIType cnsi).
Qed.

Lemma addEndpoints_last (p : Portal') userGUID l1 cnsi l2 (endpoints endpoints' : EndpointsMap') :
  addEndpoints p userGUID (l1 ++ cnsi :: l2) endpoints = Return endpoints' →
  (∀ later, later ∈ l2 → ¬ (CNSIType later = CNSIType cnsi ∧ GUID later = GUID cnsi)) →
  lookupEndpoint endpoints' (CNSIType cnsi) (GUID cnsi)
  = Some (newEndpointDetail p userGUID cnsi).
Proof.
  rewrite addEndpoints_app.
  destruct (addEndpoints p userGUID l1 endpoints) as [endpoints1|]; [|done]. simpl.
  destruct (endpoints1 !! CNSIType cnsi) as [bucket|] eqn:Hb; [|done].
  intros Hrest Hnone. rewrite (addEndpoints_untouched _ _ _ _ _ _ _ Hrest Hnone).
  rewrite (lookupEndpoint_insert _ _ _ _ _ _ _ Hb). by rewrite decide_True.
Qed.

(** The endpoints of the snapshot returned, when the plugins leave
    [Endpoints] alone: those of the insertion loop after the relation step. *)
Lemma getInfo_Endpoints (p : Portal') c warnings (s : Snapshot') :
  getInfo p c = (warnings, Return (Ok s)) →
  pluginsKeep Endpoints (Plugins p) →
  ∃ userGUID endpoints,
    GetSessionStringValue p c "user_id" = Ok userGUID
    ∧ addEndpoints p userGUID (buildCNSIList p c).1 (initEndpoints (Plugins p) ∅)
      = Return endpoints
    ∧ ∀ t k, lookupEndpoint (Endpoints s) t k = relationStep p <$> lookupEndpoint endpoints t k.
Proof.
  intros Hrun Hkeep.
  apply getInfo_Return_Ok in Hrun
    as (versions & userGUID & uaaUser & endpoints & s0 & s1
        & _ & Hu & _ & Hadd & Hatt & Hpost & ->).
  apply updateMetadataAll_PostProcessed in Hpost.
  apply (PostProcessed_keep Endpoints) in Hpost; [|done].
  exists userGUID, endpoints. split_and!; try done.
  intros t k. simpl. rewrite Hpost.
  unfold attachOrWarn, updateEndpointsWithRelations, relationStep in *.
  destruct (ListRelations p) as [relations|]; injection Hatt as _ <-; simpl.
  - apply lookupEndpoint_fmap.
  - by rewrite option_fmap_id.
Qed.

Lemma relationStep_record (p : Portal') endpoint :
  Endpoint_CNSIRecord (relationStep p endpoint) = Endpoint_CNSIRecord endpoint
  ∧ User (relationStep p endpoint) = User endpoint
  ∧ TokenMetadata (relationStep p endpoint) = TokenMetadata endpoint
  ∧ SystemSharedToken (relationStep p endpoint) = SystemSharedToken endpoint.
Proof. unfold relationStep. by destruct (ListRelations p). Qed.

Lemma newEndpointDetail_record (p : Portal') userGUID cnsi :
  Endpoint_CNSIRecord (newEndpointDetail p userGUID cnsi) = cnsi
  ∧ Relations (newEndpointDetail p userGUID cnsi) = None.
Proof.
  unfold newEndpointDetail. by destruct (GetCNSIUserAndToken p (GUID cnsi) userGUID) as [[]|].
Qed.

(** X4. In the snapshot returned, every endpoint is one that was listed: it
    is stored under its own type and its own identifier, and it carries the
    user and the token data that [GetCNSIUserAndToken] gives for it and the
    requesting user, or no user and no shared token when there is none. *)
Theorem getInfo_endpoints_keyed (p : Portal') c warnings (s : Snapshot') userGUID
    cnsiType key endpoint :
  getInfo p c = (warnings, Return (Ok s)) →
  pluginsKeep Endpoints (Plugins p) →
  GetSessionStringValue p c "user_id" = Ok userGUID →
  lookupEndpoint (Endpoints s) cnsiType key = Some endpoint →
  Endpoint_CNSIRecord endpoint ∈ (buildCNSIList p c).1
  ∧ CNSIType (Endpoint_CNSIRecord endpoint) = cnsiType
  ∧ Endpoint_GUID endpoint = key
  ∧ (User endpoint, TokenMetadata endpoint, SystemSharedToken endpoint)
    = match GetCNSIUserAndToken p key userGUID with
      | Some (cnsiUser, token) => (Some cnsiUser, Token_Metadata token, SystemShared token)
      | None => (None, "", false)
      end.
Proof.
  intros Hrun Hkeep Hu He.
  destruct (getInfo_Endpoints p c warnings s Hrun Hkeep) as (u & eps & Hu' & Hadd & Hlook).
  rewrite Hu in Hu'. injection Hu' as <-.
  rewrite Hlook in He. apply fmap_Some in He as (e0 & He0 & ->).
  destruct (addEndpoints_entries _ _ _ _ _ Hadd _ _ _ He0) as [Hinit|(cnsi & Hin & <- & <- & ->)].
  { by rewrite lookupEndpoint_init_empty in Hinit. }
  destruct (relationStep_record p (newEndpointDetail p userGUID cnsi)) as (Hrec & HU & HT & HS).
  unfold Endpoint_GUID. rewrite Hrec, HU, HT, HS.
  destruct (newEndpointDetail_record p userGUID cnsi) as [-> _].
  split_and!; try done.
  unfold newEndpointDetail. by destruct (GetCNSIUserAndToken p (GUID cnsi) userGUID) as [[]|].
Qed.

(** X5. When the same type and identifier are listed more than once, the
    snapshot holds the endpoint listed last: a listed endpoint is in the
    snapshot, under its type and identifier, unless a later one of the list
    has the same type and identifier. *)
Theorem getInfo_last_listed_wins (p : Portal') c warnings (s : Snapshot') l1 cnsi l2 :
  getInfo p c = (warnings, Return (Ok s)) →
  pluginsKeep Endpoints (Plugins p) →
  (buildCNSIList p c).1 = l1 ++ cnsi :: l2 →
  (∀ later, later ∈ l2 → ¬ (CNSIType later = CNSIType cnsi ∧ GUID later = GUID cnsi)) →
  ∃ endpoint,
    lookupEndpoint (Endpoints s) (CNSIType cnsi) (GUID cnsi) = Some endpoint
    ∧ Endpoint_CNSIRecord endpoint = cnsi.
Proof.
  intros Hrun Hkeep Hlist Hlast.
  destruct (getInfo_Endpoints p c warnings s Hrun Hkeep) as (u & eps & _ & Hadd & Hlook).
  rewrite Hlist in Hadd. apply addEndpoints_last in Hadd; [|done].
  eexists. rewrite Hlook, Hadd. split; [done|].
  destruct (relationStep_record p (newEndpointDetail p u cnsi)) as (-> & _).
  by destruct (newEndpointDetail_record p u cnsi) as [-> _].
Qed.

(** X6. When the relations are listed, every endpoint of the snapshot has
    its two lists, and they are exact: [Provides] holds, in the order of the
    listing, one entry for each relation whose provider is the endpoint, and
    [Receives] one for each relation whose target, and not whose provider,
    it is.  An endpoint that no relation names has two empty lists. *)
Theorem getInfo_relations_lists (p : Portal') c warnings (s : Snapshot') relations
    cnsiType key endpoint :
  getInfo p c = (warnings, Return (Ok s)) →
  pluginsKeep Endpoints (Plugins p) →
  ListRelations p = Ok relations →
  lookupEndpoint (Endpoints s) cnsiType key = Some endpoint →
  Relations endpoint
  = Some {| Provides := providesEntry <$> filter (λ r, Provider r = key) relations;
            Receives := receivesEntry <$>
                          filter (λ r, Provider r ≠ key ∧ Target r = key) relations |}.
Proof.
  intros Hrun Hkeep HL He.
  destruct (getInfo_Endpoints p c warnings s Hrun Hkeep) as (u & eps & _ & Hadd & Hlook).
  rewrite Hlook in He. apply fmap_Some in He as (e0 & He0 & ->).
  destruct (addEndpoints_entries _ _ _ _ _ Hadd _ _ _ He0) as [Hinit|(cnsi & Hin & <- & <- & ->)].
  { by rewrite lookupEndpoint_init_empty in Hinit. }
  unfold relationStep. rewrite HL.
  destruct (newEndpointDetail_record p u cnsi) as [Hrec Hnil].
  rewrite (attachRelations_fresh relations _ Hnil).
  unfold Endpoint_GUID. by rewrite Hrec.
Qed.

(** X7. When listing the relations fails, no endpoint of the snapshot has
    relations: the field is nil, not a pair of empty lists. *)
Theorem getInfo_relations_nil (p : Portal') c warnings (s : Snapshot') err
    cnsiType key endpoint :
  getInfo p c = (warnings, Return (Ok s)) →
  pluginsKeep Endpoints (Plugins p) →
  ListRelations p = Err err →
  lookupEndpoint (Endpoints s) cnsiType key = Some endpoint →
  Relations endpoint = None.
Proof.
  intros Hrun Hkeep HL He.
  destruct (getInfo_Endpoints p c warnings s Hrun Hkeep) as (u & eps & _ & Hadd & Hlook).
  rewrite Hlook in He. apply fmap_Some in He as (e0 & He0 & ->).
  destruct (addEndpoints_entries _ _ _ _ _ Hadd _ _ _ He0) as [Hinit|(cnsi & Hin & <- & <- & ->)].
  { by rewrite lookupEndpoint_init_empty in Hinit. }
  unfold relationStep. rewrite HL. simpl.
  by destruct (newEndpointDetail_record p u cnsi) as [_ ->].
Qed.

(** X8. An error of [getInfo] is one of three fixed messages, which tells
    the first lookup that failed: the version, the session user, the user
    data.  Nothing is logged, and the text of the underlying error is not
    passed on. *)
Theorem getInfo_error_messages (p : Portal') c warnings err :
  getInfo p c = (warnings, Return (Err err)) →
  warnings = []
  ∧ ((∃ e, getVersionsData p = Err e) ∧ err = "Could not find database version"
     ∨ (∃ versions e, getVersionsData p = Ok versions
                      ∧ GetSessionStringValue p c "user_id" = Err e)
       ∧ err = "Could not find session user_id"
     ∨ (∃ versions userGUID e, getVersionsData p = Ok versions
                               ∧ GetSessionStringValue p c "user_id" = Ok userGUID
                               ∧ GetUAAUser p userGUID = Err e)
       ∧ err = "Could not load session user data").
Proof.
  intros Hrun.
  destruct (getVersionsData p) as [versions|e1] eqn:Hv.
  2: { unfold getInfo in Hrun. rewrite Hv in Hrun. injection Hrun as <- <-.
       split; [done|]. left. split; [by exists e1 | done]. }
  destruct (GetSessionStringValue p c "user_id") as [userGUID|e2] eqn:Hu.
  2: { unfold getInfo in Hrun. rewrite Hv, Hu in Hrun. injection Hrun as <- <-.
       split; [done|]. right; left. split; [by exists versions, e2 | done]. }
  destruct (GetUAAUser p userGUID) as [uaaUser|e3] eqn:Hd.
  2: { unfold getInfo in Hrun. rewrite Hv, Hu, Hd in Hrun. injection Hrun as <- <-.
       split; [done|]. right; right. split; [by exists versions, userGUID, e3 | done]. }
  rewrite (getInfo_authorized p c versions userGUID uaaUser Hv Hu Hd) in Hrun.
  destruct (addEndpoints _ _ _ _); [|done].
  destruct (attachOrWarn _ _) as [w s0]. by destruct (updateMetadataAll _ _ _ _).
Qed.

(** X9. The plugin status of the snapshot returned is that of the proxy,
    whatever the plugins' [UpdateMetadata] steps wrote into the field: it is
    assigned after they ran. *)
Theorem getInfo_Plugins_status (p : Portal') c warnings (s : Snapshot') :
  getInfo p c = (warnings, Return (Ok s)) →
  Info_Plugins s = proxy_PluginsStatus p.
Proof.
  intros Hrun.
  by apply getInfo_Return_Ok in Hrun as (? & ? & ? & ? & ? & ? & _ & _ & _ & _ & _ & _ & ->).
Qed.

(** X10. For an admin, the snapshot returned carries the diagnostics of the
    proxy (none when the proxy has none), provided no plugin writes the
    field. *)
Theorem getInfo_admin_diagnostics (p : Portal') c warnings (s : Snapshot') userGUID uaaUser :
  GetSessionStringValue p c "user_id" = Ok userGUID →
  GetUAAUser p userGUID = Ok uaaUser →
  Admin uaaUser = true →
  getInfo p c = (warnings, Return (Ok s)) →
  pluginsKeep Diagnostics (Plugins p) →
  Diagnostics s = proxy_Diagnostics p.
Proof.
  intros Hu Hd Hadmin Hrun Hkeep.
  apply getInfo_Return_Ok in Hrun
    as (versions & userGUID' & uaaUser' & endpoints & s0 & s1
        & _ & Hu' & Hd' & _ & Hatt & Hpost & ->).
  rewrite Hu in Hu'. injection Hu' as <-. rewrite Hd in Hd'. injection Hd' as <-.
  apply attachOrWarn_frame in Hatt as [Hdiag _].
  simpl in Hdiag. rewrite initialInfo_Diagnostics, Hadmin in Hdiag.
  apply updateMetadataAll_PostProcessed in Hpost.
  simpl. by rewrite (PostProcessed_keep Diagnostics _ _ _ _ _ Hkeep Hpost).
Qed.

(** X11. [getInfo] logs nothing, or the one warning about the relations;
    it logs the warning only if listing the relations failed, and then the
    warning carries the error of the listing. *)
Theorem getInfo_warnings (p : Portal') c :
  (getInfo p c).1 = []
  ∨ ∃ err, ListRelations p = Err err
           ∧ (getInfo p c).1
             = ["Failed to add relations data to endpoints during info request: "
                +:+ "Failed to fetch relations: " +:+ err].
Proof.
  unfold getInfo.
  destruct (getVersionsData p) as [versions|]; [|by left].
  destruct (GetSessionStringValue p c "user_id") as [userGUID|]; [|by left].
  destruct (GetUAAUser p userGUID) as [uaaUser|]; [|by left]. simpl.
  destruct (addEndpoints _ _ _ _); [|by left].
  unfold attachOrWarn, updateEndpointsWithRelations.
  destruct (ListRelations p) as [relations|err].
  - left. by destruct (updateMetadataAll _ _ _ _).
  - right. exists err. split; [done|]. by destruct (updateMetadataAll _ _ _ _).
Qed.

Lemma getInfo_Err_message (p : Portal') c warnings err :
  getInfo p c = (warnings, Return (Err err)) →
  warnings = []
  ∧ err ∈ ["Could not find database version"; "Could not find session user_id";
           "Could not load session user data"].
Proof.
  unfold getInfo.
  destruct (getVersionsData p) as [versions|].
  2: { intros [= <- <-]. split; [done|]. apply list_elem_of_here. }
  destruct (GetSessionStringValue p c "user_id") as [userGUID|].
  2: { intros [= <- <-]. split; [done|]. apply list_elem_of_further, list_elem_of_here. }
  destruct (GetUAAUser p userGUID) as [uaaUser|].
  2: { intros [= <- <-]. split; [done|].
       apply list_elem_of_further, list_elem_of_further, list_elem_of_here. }
  simpl. destruct (addEndpoints _ _ _ _); [|done].
  destruct (attachOrWarn _ _) as [w s0]. by destruct (updateMetadataAll _ _ _ _).
Qed.

(** X12. The [info] handler logs what [getInfo] logs.  It answers with
    status 403 exactly when [getInfo] returns an error, and the message is
    then that of the error, one of the three fixed messages; it answers with
    status 200 and the snapshot as body exactly when [getInfo] returns a
    snapshot.  It answers with no other status, and a panic of [getInfo] is
    not caught. *)
Theorem info_status (p : Portal') c :
  (info p c).1 = (getInfo p c).1
  ∧ match (info p c).2 with
    | Return (NewHTTPError code message) =>
        code = 403%Z
        ∧ (getInfo p c).2 = Return (Err message)
        ∧ message ∈ ["Could not find database version"; "Could not find session user_id";
                     "Could not load session user data"]
    | Return (JSON code s) => code = 200%Z ∧ (getInfo p c).2 = Return (Ok s)
    | Panic msg => (getInfo p c).2 = Panic msg
    end.
Proof.
  unfold info. destruct (getInfo p c) as [warnings [[s|err]|msg]] eqn:Hrun; simpl; try done.
  split; [done|]. split_and!; try done. by apply getInfo_Err_message in Hrun as [_ ?].
Qed.

End SnapshotMore.

(** ** Merging the pages *)

Section MergePages.

Context {Resource : Type}.

Abbreviation Response' := (gmap string (CFEndpointResponse Resource)).

(** The resources that a page has for an endpoint; none when the page does
    not have the endpoint. *)
Abbreviation pageResources endpointGuid page :=
  (default [] (resources <$> (page : Response') !! endpointGuid)).

(** An endpoint with more resources at the end of its own. *)
Abbreviation withResources more :=
  (λ endpoint : CFEndpointResponse Resource,
     {| total_pages := total_pages endpoint; resources := resources endpoint ++ more |}).

Lemma mergeEndpoint_lookup_ne (endpointResponse newResData : Response') key endpointGuid :
  key ≠ endpointGuid →
  mergeEndpoint endpointResponse newResData key !! endpointGuid = newResData !! endpointGuid.
Proof.
  intros Hne. unfold mergeEndpoint.
  destruct (endpointResponse !! key); [|done].
  case_bool_decide; [|done]. by rewrite lookup_alter_ne.
Qed.

Lemma mergeEndpoint_lookup_eq (endpointResponse newResData : Response') endpointGuid :
  mergeEndpoint endpointResponse newResData endpointGuid !! endpointGuid
  = withResources (pageResources endpointGuid endpointResponse) <$> newResData !! endpointGuid.
Proof.
  assert (∀ o : option (CFEndpointResponse Resource), o = withResources [] <$> o) as Hid.
  { intros [[t r]|]; simpl; [|done]. by rewrite app_nil_r. }
  unfold mergeEndpoint.
  destruct (endpointResponse !! endpointGuid) as [endpoint|]; simpl; [|apply Hid].
  case_bool_decide as Hlen.
  - by rewrite lookup_alter_eq.
  - destruct (resources endpoint); [apply Hid | simpl in Hlen; lia].
Qed.

Lemma foldl_mergeEndpoint_other (endpointResponse newResData : Response') keys endpointGuid :
  endpointGuid ∉ keys →
  foldl (mergeEndpoint endpointResponse) newResData keys !! endpointGuid
  = newResData !! endpointGuid.
Proof.
  revert newResData. induction keys as [|key keys IH]; intros newResData Hnotin; simpl; [done|].
  apply not_elem_of_cons in Hnotin as [Hne Hnotin].
  rewrite IH by done. by apply mergeEndpoint_lookup_ne.
Qed.

(** One later page, merged for all the keys of the first page. *)
Lemma foldl_mergeEndpoint_lookup (endpointResponse newResData : Response') keys endpointGuid :
  NoDup keys →
  endpointGuid ∈ keys ∨ newResData !! endpointGuid = None →
  foldl (mergeEndpoint endpointResponse) newResData keys !! endpointGuid
  = withResources (pageResources endpointGuid endpointResponse) <$> newResData !! endpointGuid.
Proof.
  intros Hnodup [Hin|Hnone].
  - revert newResData. induction Hnodup as [|key keys Hnotin Hnodup IH]; intros newResData.
    { by apply elem_of_nil in Hin. }
    simpl. apply elem_of_cons in Hin as [->|Hin].
    + rewrite foldl_mergeEndpoint_other by done. apply mergeEndpoint_lookup_eq.
    + rewrite IH by done. rewrite mergeEndpoint_lookup_ne; [done|].
      intros ->. by apply Hnotin.
  - destruct (decide (endpointGuid ∈ keys)) as [Hin|Hnotin].
    + clear Hnone. revert newResData.
      induction Hnodup as [|key keys Hnotin Hnodup IH]; intros newResData.
      { by apply elem_of_nil in Hin. }
      simpl. apply elem_of_cons in Hin as [->|Hin].
      * rewrite foldl_mergeEndpoint_other by done. apply mergeEndpoint_lookup_eq.
      * rewrite IH by done. rewrite mergeEndpoint_lookup_ne; [done|].
        intros ->. by apply Hnotin.
    + rewrite foldl_mergeEndpoint_other by done. by rewrite Hnone.
Qed.

(** All the later pages, merged one after the other. *)
Lemma foldl_pages_lookup (newResData : Response') keys responses endpointGuid :
  NoDup keys →
  endpointGuid ∈ keys ∨ newResData !! endpointGuid = None →
  foldl (λ newResData endpointResponse, foldl (mergeEndpoint endpointResponse) newResData keys)
        newResData responses !! endpointGuid
  = withResources (concat ((λ page, pageResources endpointGuid page) <$> responses))
      <$> newResData !! endpointGuid.
Proof.
  intros Hnodup. revert newResData.
  induction responses as [|page responses IH]; intros newResData Hkey; simpl.
  - destruct (newResData !! endpointGuid) as [[t r]|]; simpl; [|done]. by rewrite app_nil_r.
  - rewrite IH.
    + rewrite foldl_mergeEndpoint_lookup by done.
      destruct (newResData !! endpointGuid) as [[t r]|]; simpl; [|done].
      by rewrite app_assoc.
    + destruct Hkey as [?|Hnone]; [by left|right].
      rewrite foldl_mergeEndpoint_lookup by (done || by right). by rewrite Hnone.
Qed.

Lemma Object_keys_NoDup (res : Response') : NoDup (Object_keys res).
Proof. apply NoDup_fst_map_to_list. Qed.

Lemma Object_keys_or_None (res : Response') endpointGuid :
  endpointGuid ∈ Object_keys res ∨ res !! endpointGuid = None.
Proof.
  destruct (res !! endpointGuid) as [e|] eqn:He; [left|by right].
  apply list_elem_of_fmap. exists (endpointGuid, e). split; [done|].
  by apply elem_of_map_to_list.
Qed.

(** X14. [mergePages] throws for no page at all.  Otherwise the result has
    the endpoints of the first page and no other: an endpoint that only a
    later page has is dropped.  An endpoint keeps the [total_pages] of the
    first page, and its resources are those of the first page followed by
    those that each later page has for it, in the order of the pages. *)
Theorem mergePages_lookup (newResData : Response') (responses : list Response') :
  CfAPIFlattener_mergePages (@nil Response') = None
  ∧ ∃ merged,
      CfAPIFlattener_mergePages (newResData :: responses) = Some merged
      ∧ ∀ endpointGuid,
          merged !! endpointGuid
          = (λ endpoint,
               {| total_pages := total_pages endpoint;
                  resources :=
                    resources endpoint
                    ++ concat ((λ page, default [] (resources <$> page !! endpointGuid))
                                 <$> responses) |})
              <$> newResData !! endpointGuid.
Proof.
  split; [done|]. eexists. split; [reflexivity|]. intros g.
  apply foldl_pages_lookup; [apply Object_keys_NoDup | apply Object_keys_or_None].
Qed.

(** With a [CfAPIFlattener] whose fetches all give response objects,
    [flattenPagination] gives a response with exactly the endpoints of the
    first page, each with its [total_pages] of the first page and with
    resources that start with those of the first page.  When the total is
    at most 1 the result is the first response itself. *)
Theorem flattenPagination_CfAPIFlattener (res : Response') http requestOptions :
  ∃ merged,
    flattenPagination res (CfAPIFlattener http requestOptions) = Some merged
    ∧ dom merged = dom res
    ∧ (∀ endpointGuid endpoint,
         res !! endpointGuid = Some endpoint →
         ∃ endpoint',
           merged !! endpointGuid = Some endpoint'
           ∧ total_pages endpoint' = total_pages endpoint
           ∧ resources endpoint `prefix_of` resources endpoint')
    ∧ ((CfAPIFlattener_getTotalPages res ≤ 1)%Z → merged = res).
Proof.
  unfold flattenPagination, flattenPagination_requests. simpl.
  set (pages := seqZ 2 (CfAPIFlattener_getTotalPages res - 1)).
  set (later := pageResponse (CfAPIFlattener http requestOptions)
                  <$> ((λ i, FetchRequest (CfAPIFlattener_buildFetchParams requestOptions i))
                         <$> pages)).
  eexists. split; [reflexivity|].
  assert (∀ g, foldl (λ newResData endpointResponse,
                        foldl (mergeEndpoint endpointResponse) newResData (Object_keys res))
                     res later !! g
               = withResources (concat ((λ page, pageResources g page) <$> later)) <$> res !! g)
    as Hlook.
  { intros g. apply foldl_pages_lookup; [apply Object_keys_NoDup | apply Object_keys_or_None]. }
  split_and!.
  - apply set_eq. intros g. rewrite !elem_of_dom, Hlook. by rewrite fmap_is_Some.
  - intros g e He. rewrite Hlook, He. simpl. eexists. split_and!; [done|done|].
    by eexists.
  - intros Hle. subst later pages.
    replace (seqZ 2 (CfAPIFlattener_getTotalPages res - 1)) with (@nil Z); [done|].
    symmetry. apply length_zero_iff_nil. rewrite length_seqZ. lia.
Qed.

Lemma CfAPIFlattener_buildFetchParams_inj (requestOptions : RequestOptions) :
  Inj (=) (=) (CfAPIFlattener_buildFetchParams requestOptions).
Proof.
  intros i j Heq. unfold CfAPIFlattener_buildFetchParams in Heq.
  injection Heq as Heq.
  assert (<["page":=pretty i]> (params requestOptions) !! "page"
          = <["page":=pretty j]> (params requestOptions) !! "page") as Hpage by by rewrite Heq.
  rewrite !lookup_insert_eq in Hpage. injection Hpage as Hpage.
  by apply (inj pretty) in Hpage.
Qed.

(** X17. With a [CfAPIFlattener], [flattenPagination] fetches every page
    from 2 to the total once, and nothing else: its fetches are the options
    of the flattener with the parameter [page] set to the decimal page
    number, for each page number from 2 to the total, without repetition. *)
Theorem flattenPagination_each_page_once (res : Response') http requestOptions :
  let fetched :=
    additionalRequests (flattenPagination_requests res (CfAPIFlattener http requestOptions)) in
  NoDup fetched
  ∧ ∀ fetchOptions,
      fetchOptions ∈ fetched
      ↔ ∃ i, (2 ≤ i ≤ CfAPIFlattener_getTotalPages res)%Z
             ∧ fetchOptions = {| params := <["page" := pretty i]> (params requestOptions) |}.
Proof.
  intros fetched.
  assert (fetched = (CfAPIFlattener_buildFetchParams requestOptions
                       <$> seqZ 2 (CfAPIFlattener_getTotalPages res - 1))) as ->.
  { apply additionalRequests_fetches. }
  split.
  - apply NoDup_fmap_2_strong; [|apply NoDup_seqZ].
    intros i j _ _. apply CfAPIFlattener_buildFetchParams_inj.
  - intros fetchOptions. rewrite list_elem_of_fmap. split.
    + intros (i & -> & Hin). apply elem_of_seqZ in Hin. exists i. split; [lia|done].
    + intros (i & Hrange & ->). exists i. split; [done|]. apply elem_of_seqZ. lia.
Qed.

(** The step of [mergeFetched] for one page. *)
Abbreviation fetchedStep endpointGuids :=
  (λ (merged : option Response') (page : option Response'),
     merged ≫= λ newResData,
       match page with
       | Some endpointResponse =>
           Some (foldl (mergeEndpoint endpointResponse) newResData endpointGuids)
       | None =>
           match endpointGuids%list with
           | [] => Some newResData
           | _ :: _ => None
           end
       end).





End MergePages.

(** ** The charts and the delete request of a Helm release *)

Section HelmRelease.

(** X16. The pods chart has one point for every status of the release and
    no other: the points are the statuses with their pod counts, no status
    comes twice, and no point is without a value. *)
Theorem podsChartData_points (pods : PodsStatus) :
  (∀ entry, entry ∈ podsChartData pods
            ↔ ∃ key count, status pods !! key = Some count
                           ∧ entry = {| name := key; value := Some count |})
  ∧ NoDup (name <$> podsChartData pods)
  ∧ length (podsChartData pods) = size (status pods).
Proof.
  unfold podsChartData. split_and!.
  - intros entry. rewrite list_elem_of_fmap. split.
    + intros (key & -> & Hin). apply list_elem_of_fmap in Hin as ([k count] & -> & Hin).
      apply elem_of_map_to_list in Hin. simpl. exists k, count. by rewrite Hin.
    + intros (key & count & Hkey & ->). exists key. rewrite Hkey. split; [done|].
      apply list_elem_of_fmap. exists (key, count). split; [done|].
      by apply elem_of_map_to_list.
  - rewrite <- list_fmap_compose.
    replace (name ∘ (λ key, {| name := key; value := status pods !! key |})) with (@id string)
      by done.
    rewrite list_fmap_id. apply NoDup_fst_map_to_list.
  - by rewrite !length_fmap, length_map_to_list.
Qed.

(** The containers chart has the two points Ready and Not Ready, in this
    order, and their values add up to the number of containers; the value
    of Not Ready is not clamped. *)
Lemma containersChartData_total (pods : PodsStatus) :
  ∃ readyCount notReadyCount,
    containersChartData pods
    = [ {| name := "Ready"; value := Some readyCount |};
        {| name := "Not Ready"; value := Some notReadyCount |} ]
    ∧ readyCount = ready pods
    ∧ (readyCount + notReadyCount = containers pods)%Z
    ∧ ((notReadyCount < 0)%Z ↔ (containers pods < ready pods)%Z).
Proof.
  exists (ready pods), (containers pods - ready pods)%Z.
  split_and!; [done | done | lia | lia].
Qed.

Lemma String_substring_all (s : string) : String.substring 0 (String.length s) s = s.
Proof. induction s as [|a s IH]; simpl; [done|]. by rewrite IH. Qed.

Lemma String_prefix_char (c a : ascii) (s : string) :
  String.prefix (String c EmptyString) (String a s) = bool_decide (c = a).
Proof.
  change (String.prefix (String c EmptyString) (String a s))
    with (if Ascii.ascii_dec c a then String.prefix EmptyString s else false).
  destruct (Ascii.ascii_dec c a) as [Heq|Hne].
  - rewrite bool_decide_eq_true_2 by done. by destruct s.
  - by rewrite bool_decide_eq_false_2.
Qed.

Lemma String_replace_eq (s pattern replacement : string) :
  String_replace s pattern replacement
  = if String.prefix pattern s
    then replacement +:+ String.substring (String.length pattern)
                           (String.length s - String.length pattern) s
    else match s with
         | EmptyString => EmptyString
         | String a s' => String a (String_replace s' pattern replacement)
         end.
Proof. by destruct s. Qed.

(** Replacing one character in a string that starts without it. *)
Lemma String_replace_char_app (c : ascii) (replacement before after : string) :
  (∀ i, String.get i before ≠ Some c) →
  String_replace (before +:+ String c after) (String c EmptyString) replacement
  = before +:+ replacement +:+ after.
Proof.
  induction before as [|a before IH]; intros Hfree.
  - rewrite String_replace_eq. change (EmptyString +:+ String c after) with (String c after).
    rewrite String_prefix_char, bool_decide_eq_true_2 by done.
    change (String.substring _ _ (String c after))
      with (String.substring 0 (String.length after - 0) after).
    by rewrite Nat.sub_0_r, String_substring_all.
  - rewrite String_replace_eq.
    change (String a before +:+ String c after) with (String a (before +:+ String c after)).
    rewrite String_prefix_char, bool_decide_eq_false_2.
    + rewrite IH; [done|]. intros i. apply (Hfree (S i)).
    + intros ->. by apply (Hfree 0%nat).
Qed.

Lemma String_replace_char_free (c : ascii) (replacement s : string) :
  (∀ i, String.get i s ≠ Some c) →
  String_replace s (String c EmptyString) replacement = s.
Proof.
  induction s as [|a s IH]; intros Hfree; [done|].
  rewrite String_replace_eq, String_prefix_char, bool_decide_eq_false_2.
  - rewrite IH; [done|]. intros i. apply (Hfree (S i)).
  - intros ->. by apply (Hfree 0%nat).
Qed.

(** X18. For a release identifier made of an endpoint without colon, a
    colon and a name, the delete request goes to the path of the endpoint,
    a slash and the name: the first colon only is replaced, the colons of
    the name stay. *)
Theorem deleteReleaseURL_first_colon (endpoint releaseName : string) :
  (∀ i, String.get i endpoint ≠ Some ":"%char) →
  deleteReleaseURL (endpoint +:+ ":" +:+ releaseName)
  = "/pp/v1/helm/releases/" +:+ endpoint +:+ "/" +:+ releaseName.
Proof.
  intros Hfree. unfold deleteReleaseURL. simpl. f_equal.
  by apply (String_replace_char_app ":" "/").
Qed.

(** X19. A release identifier without colon goes into the path of the
    delete request as it is. *)
Theorem deleteReleaseURL_no_colon (guid : string) :
  (∀ i, String.get i guid ≠ Some ":"%char) →
  deleteReleaseURL guid = "/pp/v1/helm/releases/" +:+ guid.
Proof.
  intros Hfree. unfold deleteReleaseURL. simpl. f_equal.
  by apply (String_replace_char_free ":" "/").
Qed.

End HelmRelease.

(** ** The endpoint details cell *)

Section TableCellProperties.

Context {EndpointModel DetailsComponentType ComponentRef : Type}.
Variable getEndpoint_entity : EndpointModel → option (option DetailsComponentType).
Variable createEndpointDetails :
  DetailsComponentType
  → option ComponentRef * option (@EndpointListDetailsComponent EndpointModel).

Abbreviation Cell := (@TableCellEndpointDetailsComponent EndpointModel ComponentRef).
Abbreviation setRow := (set_row getEndpoint_entity createEndpointDetails).
Abbreviation setRows := (set_rows getEndpoint_entity createEndpointDetails).

Lemma set_row_with_cell (this : Cell) row :
  is_Some (cell this) →
  (setRow this row).2 = []
  ∧ is_Some (cell (setRow this row).1)
  ∧ componentRef (setRow this row).1 = componentRef this.
Proof.
  intros [shown Hcell]. unfold set_row, showRow. simpl. rewrite Hcell.
  destruct (getEndpoint_entity row) as [[d|]|]; simpl; rewrite ?Hcell; by eauto.
Qed.

Lemma set_row_created (this : Cell) row :
  (∀ d, is_Some (createEndpointDetails d).2) →
  (setRow this row).2 = []
  ∨ length (setRow this row).2 = 1%nat ∧ is_Some (cell (setRow this row).1).
Proof.
  intros Hcreate. unfold set_row. simpl.
  destruct (getEndpoint_entity row) as [[d|]|]; simpl; [|by left..].
  destruct (cell this) as [shown|] eqn:Hcell; [by left|].
  right. split; [done|]. unfold showRow. simpl.
  destruct (Hcreate d) as [shown ->]. by eauto.
Qed.

Lemma set_rows_snoc (this : Cell) rows row :
  setRows this (rows ++ [row])
  = ((setRow (setRows this rows).1 row).1,
     (setRows this rows).2 ++ (setRow (setRows this rows).1 row).2).
Proof. unfold set_rows. by rewrite foldl_app. Qed.

Lemma set_row_pRow (this : Cell) row : pRow (setRow this row).1 = Some row.
Proof.
  unfold set_row, showRow. simpl.
  destruct (getEndpoint_entity row) as [[d|]|]; simpl; try done.
  destruct (cell this); simpl; [done|].
  by destruct ((createEndpointDetails d).2).
Qed.

(** X20. Over any sequence of rows given to the setter, the component
    creates its details component at most once, and not at all when it
    has one from the start, provided a creation yields a component.  After
    the sequence, the getter gives the last row, also when that row has no
    details component. *)
Theorem set_rows_creates_once (this : Cell) (rows : list EndpointModel) :
  (∀ d, is_Some (createEndpointDetails d).2) →
  (length (setRows this rows).2 ≤ 1)%nat
  ∧ (is_Some (cell this) → (setRows this rows).2 = [])
  ∧ (∀ row, last rows = Some row → get_row (setRows this rows).1 = Some row).
Proof.
  intros Hcreate.
  assert ((is_Some (cell this) →
           (setRows this rows).2 = [] ∧ is_Some (cell (setRows this rows).1))
          ∧ ((setRows this rows).2 = []
             ∨ length (setRows this rows).2 = 1%nat ∧ is_Some (cell (setRows this rows).1)))
    as [Hwith Hcount].
  { induction rows as [|row rows IH] using rev_ind.
    { split; [by intros ?|by left]. }
    rewrite set_rows_snoc. simpl. destruct IH as [IHwith IHcount]. split.
    - intros Hcell. destruct (IHwith Hcell) as [-> Hsome].
      destruct (set_row_with_cell (setRows this rows).1 row Hsome) as (-> & ? & _). by split.
    - destruct IHcount as [Hnone|[Hone Hsome]].
      + rewrite Hnone. simpl.
        destruct (set_row_created (setRows this rows).1 row Hcreate)
          as [->|(Hlen & Hsome')]; [by left | by right].
      + destruct (set_row_with_cell (setRows this rows).1 row Hsome) as (-> & ? & _).
        rewrite app_nil_r. by right. }
  split_and!.
  - destruct Hcount as [->|[-> _]]; simpl; lia.
  - intros Hcell. by apply Hwith.
  - intros row Hlast. apply last_Some in Hlast as [rows' ->].
    rewrite set_rows_snoc. simpl. apply set_row_pRow.
Qed.

(** A row whose entity is missing, or has no details component, is stored,
    and nothing else happens. *)
Lemma set_row_without_details (this : Cell) row :
  getEndpoint_entity row = None ∨ getEndpoint_entity row = Some None →
  get_row (setRow this row).1 = Some row
  ∧ cell (setRow this row).1 = cell this
  ∧ componentRef (setRow this row).1 = componentRef this
  ∧ (setRow this row).2 = [].
Proof. unfold set_row, get_row. by intros [->| ->]. Qed.

(** A row whose entity has a details component is shown: afterwards the
    cell, when there is one, has the row and the table flag set. *)
Lemma set_row_with_details (this : Cell) row listDetailsComponent :
  getEndpoint_entity row = Some (Some listDetailsComponent) →
  get_row (setRow this row).1 = Some row
  ∧ (∀ shown, cell (setRow this row).1 = Some shown →
              shown = {| details_row := Some row; isTable := true |})
  ∧ (is_Some (cell this) →
     is_Some (cell (setRow this row).1)
     ∧ componentRef (setRow this row).1 = componentRef this
     ∧ (setRow this row).2 = [])
  ∧ (cell this = None →
     (setRow this row).2 = [listDetailsComponent]
     ∧ componentRef (setRow this row).1 = (createEndpointDetails listDetailsComponent).1
     ∧ (is_Some (cell (setRow this row).1)
        ↔ is_Some (createEndpointDetails listDetailsComponent).2)).
Proof.
  intros Hentity. unfold set_row, get_row, showRow. simpl. rewrite Hentity.
  destruct (cell this) as [shown0|] eqn:Hcell; simpl; rewrite ?Hcell.
  { split_and!; try done. by intros shown [= <-]. }
  destruct ((createEndpointDetails listDetailsComponent).2) as [created|] eqn:Hcreated;
    simpl; rewrite ?Hcreated.
  - split_and!; try done. by intros shown [= <-].
  - by split_and!.
Qed.

Lemma set_row_cell (this : Cell) row :
  (∀ d, is_Some (createEndpointDetails d).2) →
  cell (setRow this row).1
  = if decide (is_Some (mjoin (getEndpoint_entity row)))
    then Some {| details_row := Some row; isTable := true |}
    else cell this.
Proof.
  intros Hcreate. unfold set_row, showRow.
  destruct (decide (is_Some (mjoin (getEndpoint_entity row)))) as [Hdetails|Hdetails];
    destruct (getEndpoint_entity row) as [[d|]|]; simpl in *;
    try done; try (by destruct Hdetails as [? [=]]); try (by exfalso; apply Hdetails; eexists).
  destruct (cell this); simpl; [done|].
  by destruct (Hcreate d) as [created ->].
Qed.

(** X21. Over any sequence of rows given to the setter, the cell shows the
    last row whose entity has a details component, with the table flag set,
    provided a creation yields a component.  It is not the last row given
    when that row has no details component: the cell then keeps the row it
    showed, and when no row of the sequence has a details component the
    cell is as it was. *)
Theorem set_rows_cell (this : Cell) (rows : list EndpointModel) :
  (∀ d, is_Some (createEndpointDetails d).2) →
  cell (set_rows getEndpoint_entity createEndpointDetails this rows).1
  = match last (filter (λ row, is_Some (mjoin (getEndpoint_entity row))) rows) with
    | Some row => Some {| details_row := Some row; isTable := true |}
    | None => cell this
    end.
Proof.
  intros Hcreate. induction rows as [|row rows IH] using rev_ind; [done|].
  rewrite set_rows_snoc. simpl. rewrite set_row_cell by done.
  rewrite filter_app, filter_cons, filter_nil.
  case_decide as Hdetails.
  - by rewrite last_snoc.
  - by rewrite app_nil_r.
Qed.

End TableCellProperties.

(** * The deployment, checked *)

Example strings_Index_first : strings_Index "a{b{" "{" = 1%Z.
Proof. reflexivity. Qed.

Example strings_Index_none : strings_Index "abc" "{" = (-1)%Z.
Proof. reflexivity. Qed.

Example strings_Index_empty : strings_Index "" "" = 0%Z.
Proof. reflexivity. Qed.

Example getTotalPages_firstPage : CfAPIFlattener_getTotalPages firstPage = 3%Z.
Proof. reflexivity. Qed.

Example mergePages_firstPage :
  CfAPIFlattener_mergePages
    [firstPage; {[ "A" := {| total_pages := 3; resources := [tt] |} ]}; ∅]
  = Some {[ "A" := {| total_pages := 3; resources := [tt; tt; tt] |};
            "B" := {| total_pages := 1; resources := [tt] |} ]}.
Proof. reflexivity. Qed.

(** The scenario of the specification: A provides to B, U has a token for A. *)
Example scenario_A_deploys_to_B :
  ∃ s, getInfo (exampleProxy false [plainPlugin "cf"; plainPlugin "k8s"] [cnsiA; cnsiB]
                  (Ok [relationAB])) tt = ([], Return (Ok s))
       ∧ (lookupEndpoint (Endpoints s) "cf" "A" ≫= Relations)
         = Some {| Provides := [ {| Guid := "B"; RelationType := "deploys-to"; Metadata := tt |} ];
                   Receives := [] |}
       ∧ (lookupEndpoint (Endpoints s) "k8s" "B" ≫= Relations)
         = Some {| Provides := [];
                   Receives := [ {| Guid := "A"; RelationType := "deploys-to"; Metadata := tt |} ] |}
       ∧ (User <$> lookupEndpoint (Endpoints s) "cf" "A") = Some (Some (userU false))
       ∧ (User <$> lookupEndpoint (Endpoints s) "k8s" "B") = Some None.
Proof.
  eexists. split; [reflexivity|]. split_and!; reflexivity.
Qed.

(** ** The claims on the deployment *)

(** C1. Endpoint A with the self-relation (A, A): after [getInfo] has
    attached the relations, A's [Provides] holds the one entry of the
    relation and A's [Receives] holds none. *)
Theorem self_relation_missing_from_receives :
  ∃ s, getInfo (exampleProxy false [plainPlugin "cf"] [cnsiA] (Ok [relationAA])) tt
       = ([], Return (Ok s))
       ∧ (lookupEndpoint (Endpoints s) "cf" "A" ≫= Relations)
         = Some {| Provides := [ {| Guid := "A"; RelationType := "mirrors"; Metadata := tt |} ];
                   Receives := [] |}.
Proof. eexists. split; reflexivity. Qed.

Lemma endpointsA_present guid : endpointPresent endpointsA guid → guid = "A".
Proof.
  intros (cnsiType & key & endpoint & Hlook & <-).
  unfold lookupEndpoint, endpointsA in Hlook.
  apply bind_Some in Hlook as (bucket & Hbucket & Hkey).
  apply lookup_singleton_Some in Hbucket as [_ <-].
  by apply lookup_singleton_Some in Hkey as [_ <-].
Qed.

(** C2 fails as stated: X is not in the map, and the relation from A to X
    still gives A's [Provides] an entry, which A does not have without it. *)
Lemma dangling_relation_kept_by_provider :
  ¬ endpointPresent endpointsA "X"
  ∧ ∃ endpoints' endpoints'',
      updateEndpointsWithRelations (exampleProxy false [] [] (Ok [relationAX])) endpointsA
      = Ok endpoints'
      ∧ updateEndpointsWithRelations (exampleProxy false [] [] (Ok [])) endpointsA
        = Ok endpoints''
      ∧ (lookupEndpoint endpoints' "cf" "A" ≫= Relations)
        = Some {| Provides := [ {| Guid := "X"; RelationType := "deploys-to"; Metadata := tt |} ];
                  Receives := [] |}
      ∧ (lookupEndpoint endpoints'' "cf" "A" ≫= Relations)
        = Some {| Provides := []; Receives := [] |}.
Proof.
  split.
  - intros Hx. by apply endpointsA_present in Hx.
  - eexists _, _. split_and!; reflexivity.
Qed.

Lemma dangling_relation_attached_to_present_end_witness :
  ∃ endpoints' endpoints'',
    updateEndpointsWithRelations (exampleProxy false [] [] (Ok [relationAX])) endpointsA
    = Ok endpoints'
    ∧ updateEndpointsWithRelations (exampleProxy false [] [] (Ok [])) endpointsA = Ok endpoints''
    ∧ (∀ cnsiType key endpoint,
         lookupEndpoint endpointsA cnsiType key = Some endpoint →
         Endpoint_GUID endpoint ≠ Provider relationAX →
         Endpoint_GUID endpoint ≠ Target relationAX →
         lookupEndpoint endpoints' cnsiType key = lookupEndpoint endpoints'' cnsiType key)
    ∧ (¬ endpointPresent endpointsA (Provider relationAX) →
       ¬ endpointPresent endpointsA (Target relationAX) →
       endpoints' = endpoints'')
    ∧ (∀ cnsiType key endpoint,
         lookupEndpoint endpointsA cnsiType key = Some endpoint →
         Endpoint_GUID endpoint = Provider relationAX →
         ∃ endpoint' rels,
           lookupEndpoint endpoints' cnsiType key = Some endpoint'
           ∧ Relations endpoint' = Some rels
           ∧ providesEntry relationAX ∈ Provides rels)
    ∧ (∀ cnsiType key endpoint,
         lookupEndpoint endpointsA cnsiType key = Some endpoint →
         Endpoint_GUID endpoint = Target relationAX →
         Provider relationAX ≠ Target relationAX →
         ∃ endpoint' rels,
           lookupEndpoint endpoints' cnsiType key = Some endpoint'
           ∧ Relations endpoint' = Some rels
           ∧ receivesEntry relationAX ∈ Receives rels).
Proof.
  apply (dangling_relation_attached_to_present_end
           (exampleProxy false [] [] (Ok [relationAX])) (exampleProxy false [] [] (Ok []))
           [] relationAX [] endpointsA).
  - reflexivity.
  - reflexivity.
  - right. intros Hx. apply endpointsA_present in Hx. discriminate Hx.
Defined.

Lemma relation_attached_to_both_ends_witness :
  ∃ endpoints' endpointA' endpointB' relsA relsB,
    updateEndpointsWithRelations (exampleProxy false [] [] (Ok [relationAB])) endpointsAB
    = Ok endpoints'
    ∧ lookupEndpoint endpoints' "cf" "A" = Some endpointA'
    ∧ Relations endpointA' = Some relsA
    ∧ {| Guid := "B"; RelationType := "deploys-to"; Metadata := tt |} ∈ Provides relsA
    ∧ lookupEndpoint endpoints' "k8s" "B" = Some endpointB'
    ∧ Relations endpointB' = Some relsB
    ∧ {| Guid := "A"; RelationType := "deploys-to"; Metadata := tt |} ∈ Receives relsB.
Proof.
  apply (relation_attached_to_both_ends
           (exampleProxy false [] [] (Ok [relationAB])) [relationAB] relationAB endpointsAB
           "cf" "A" (newEndpointDetail (exampleProxy false [] [] (Ok [])) "U" cnsiA)
           "k8s" "B" (newEndpointDetail (exampleProxy false [] [] (Ok [])) "U" cnsiB)).
  - reflexivity.
  - apply list_elem_of_here.
  - simpl. discriminate.
  - reflexivity.
  - reflexivity.
  - reflexivity.
  - reflexivity.
Defined.

(** C3 fails as stated: for a user that is not an admin, the diagnostics
    that a plugin writes in its [UpdateMetadata] step are in the snapshot
    returned. *)
Lemma non_admin_plugin_diagnostics_returned :
  Admin (userU false) = false
  ∧ GetUAAUser (exampleProxy false [diagnosticsPlugin "cf"] [cnsiA] (Ok [])) "U"
    = Ok (userU false)
  ∧ ∃ s, getInfo (exampleProxy false [diagnosticsPlugin "cf"] [cnsiA] (Ok [])) tt
         = ([], Return (Ok s))
         ∧ Diagnostics s = Some "written by plugin".
Proof. split_and!; [reflexivity..|]. eexists. split; reflexivity. Qed.

Lemma plainPlugins_keep {A} (part : ExampleInfo → A) (types : list string) :
  pluginsKeep part (plainPlugin <$> types).
Proof.
  intros plugin ep s userGUID c s' Hin Hep Hrun.
  apply list_elem_of_fmap in Hin as (cnsiType & -> & _).
  injection Hep as <-. by injection Hrun as <-.
Qed.

Lemma plainPlugins_return (types : list string) : pluginsReturn (plainPlugin <$> types).
Proof.
  intros plugin ep s userGUID c Hin Hep.
  apply list_elem_of_fmap in Hin as (cnsiType & -> & _).
  injection Hep as <-. by exists s.
Qed.

Lemma getInfo_non_admin_diagnostics_witness :
  ∃ s,
    getInfo (exampleProxy false (plainPlugin <$> ["cf"]) [cnsiA] (Ok [])) tt = ([], Return (Ok s))
    ∧ ∃ s0 s1,
        Diagnostics s0 = None
        ∧ PostProcessed "U" tt (plainPlugin <$> ["cf"]) s0 s1
        ∧ s = set_Plugins s1 (Some tt)
        ∧ (pluginsKeep Diagnostics (plainPlugin <$> ["cf"]) → Diagnostics s = None).
Proof.
  eexists. split; [reflexivity|].
  exact (getInfo_non_admin_diagnostics
           (exampleProxy false (plainPlugin <$> ["cf"]) [cnsiA] (Ok [])) tt [] _ "U" (userU false)
           eq_refl eq_refl eq_refl eq_refl).
Defined.

(** C4 fails as stated: the first plugin panics in its [UpdateMetadata]
    step, and [getInfo] returns no snapshot; the plugin after it is not
    reached. *)
Lemma panicking_plugin_aborts_getInfo :
  getInfo (exampleProxy false [panickingPlugin "cf"; plainPlugin "k8s"] [cnsiA; cnsiB]
             (Ok [relationAB])) tt
  = ([], Panic "invalid memory address or nil pointer dereference").
Proof. reflexivity. Qed.

Lemma getInfo_returning_plugins_all_run_witness :
  ∃ warnings s0 s1,
    attachOrWarn (exampleProxy false (plainPlugin <$> ["cf"; "k8s"]) [cnsiA; cnsiB]
                    (Ok [relationAB]))
      (set_Endpoints
         (initialInfo (exampleProxy false (plainPlugin <$> ["cf"; "k8s"]) [cnsiA; cnsiB]
                         (Ok [relationAB])) tt (userU false))
         endpointsAB)
    = (warnings, s0)
    ∧ PostProcessed "U" tt (plainPlugin <$> ["cf"; "k8s"]) s0 s1
    ∧ getInfo (exampleProxy false (plainPlugin <$> ["cf"; "k8s"]) [cnsiA; cnsiB]
                 (Ok [relationAB])) tt
      = (warnings, Return (Ok (set_Plugins s1 (Some tt))))
    ∧ (pluginsKeep Endpoints (plainPlugin <$> ["cf"; "k8s"]) → Endpoints s1 = Endpoints s0).
Proof.
  exact (getInfo_returning_plugins_all_run
           (exampleProxy false (plainPlugin <$> ["cf"; "k8s"]) [cnsiA; cnsiB] (Ok [relationAB]))
           tt tt "U" (userU false) endpointsAB eq_refl eq_refl eq_refl eq_refl
           (plainPlugins_return ["cf"; "k8s"])).
Defined.

Lemma otherPlugin_keep {A} (part : ExampleInfo → A) (plugins : list ExamplePlugin) :
  pluginsKeep part plugins → pluginsKeep part (otherPlugin :: plugins).
Proof.
  intros Hkeep plugin ep s userGUID c s' Hin Hep Hrun.
  apply elem_of_cons in Hin as [->|Hin]; [discriminate Hep|].
  by eapply Hkeep.
Qed.

(** C6 fails as stated: the plugin that owns the type cf takes the buckets
    away in its [UpdateMetadata] step, and the snapshot returned has no
    bucket for cf. *)
Lemma plugin_drops_buckets :
  ∃ endpointPlugin s,
    droppingPlugin "cf" ∈ Plugins (exampleProxy false [droppingPlugin "cf"] [] (Ok []))
    ∧ GetEndpointPlugin (droppingPlugin "cf") = Ok endpointPlugin
    ∧ GetType endpointPlugin = "cf"
    ∧ getInfo (exampleProxy false [droppingPlugin "cf"] [] (Ok [])) tt = ([], Return (Ok s))
    ∧ Endpoints s !! "cf" = None.
Proof. eexists _, _. split_and!; [apply list_elem_of_here | reflexivity..]. Qed.

(** The deployment of C6: a plugin that is not an endpoint plugin, two owned
    types, a plugin with an empty type, and no endpoint at all. *)
Lemma getInfo_buckets_witness :
  ∃ s,
    getInfo (exampleProxy false (otherPlugin :: (plainPlugin <$> ["cf"; "k8s"; ""])) [] (Ok [])) tt
    = ([], Return (Ok s))
    ∧ Endpoints s !! "cf" = Some ∅
    ∧ Endpoints s !! "k8s" = Some ∅
    ∧ pluginBuckets (otherPlugin :: (plainPlugin <$> ["cf"; "k8s"; ""])) s
    ∧ ∃ userGUID s0 s1,
        pluginBuckets (otherPlugin :: (plainPlugin <$> ["cf"; "k8s"; ""])) s0
        ∧ PostProcessed userGUID tt (otherPlugin :: (plainPlugin <$> ["cf"; "k8s"; ""])) s0 s1
        ∧ s = set_Plugins s1 (Some tt).
Proof.
  eexists. split; [reflexivity|]. split; [reflexivity|]. split; [reflexivity|].
  match goal with
  | |- pluginBuckets _ ?s ∧ _ =>
      assert (getInfo
                (exampleProxy false (otherPlugin :: (plainPlugin <$> ["cf"; "k8s"; ""])) []
                   (Ok [])) tt = ([], Return (Ok s))) as Hrun by (vm_compute; reflexivity);
      destruct (getInfo_buckets _ _ _ _ Hrun)
        as (userGUID & s0 & s1 & H0 & Hpost & Hs & Hkept)
  end.
  split.
  - apply Hkept.
    exact (otherPlugin_keep buckets _ (plainPlugins_keep buckets ["cf"; "k8s"; ""])).
  - exists userGUID, s0, s1. split_and!; [exact H0 | exact Hpost | exact Hs].
Defined.

Lemma k8s_not_registered : ¬ registeredType (plainPlugin <$> ["cf"]) "k8s".
Proof.
  intros (_ & plugin & ep & Hin & Hep & Hty).
  apply list_elem_of_fmap in Hin as (cnsiType & -> & Hin).
  apply list_elem_of_singleton in Hin as ->.
  injection Hep as <-. discriminate Hty.
Qed.

(** The deployment of C7: endpoint B has type k8s, which no plugin owns. *)
Lemma getInfo_needs_registered_types_witness :
  getInfo (exampleProxy false (plainPlugin <$> ["cf"]) [cnsiA; cnsiB] (Ok [])) tt
  = ([], Panic "assignment to entry in nil map")
  ∧ (∀ warnings r,
       getInfo (exampleProxy false (plainPlugin <$> ["cf"; "k8s"]) [cnsiA; cnsiB] (Ok [])) tt
       = (warnings, Return r) →
       Forall (λ cnsi, registeredType (plainPlugin <$> ["cf"; "k8s"]) (CNSIType cnsi))
              [cnsiA; cnsiB]).
Proof.
  split.
  - apply (proj1 (getInfo_needs_registered_types
                    (exampleProxy false (plainPlugin <$> ["cf"]) [cnsiA; cnsiB] (Ok []))
                    tt tt "U" (userU false) eq_refl eq_refl eq_refl)).
    apply Exists_cons_tl, Exists_cons_hd. exact k8s_not_registered.
  - exact (proj2 (getInfo_needs_registered_types
                    (exampleProxy false (plainPlugin <$> ["cf"; "k8s"]) [cnsiA; cnsiB] (Ok []))
                    tt tt "U" (userU false) eq_refl eq_refl eq_refl)).
Defined.

(** C8 fails as stated: the relations cannot be listed, the warning is
    logged, and the plugin that panics in its [UpdateMetadata] step leaves
    the request without snapshot. *)
Lemma relations_failure_then_plugin_panic :
  ListRelations (exampleProxy false [panickingPlugin "cf"] [cnsiA] (Err "connection refused"))
  = Err "connection refused"
  ∧ getInfo (exampleProxy false [panickingPlugin "cf"] [cnsiA] (Err "connection refused")) tt
    = (["Failed to add relations data to endpoints during info request: "
        +:+ "Failed to fetch relations: " +:+ "connection refused"],
       Panic "invalid memory address or nil pointer dereference").
Proof. split; reflexivity. Qed.

(** The deployment of C8: the relations table cannot be read. *)
Lemma getInfo_relations_failure_logged_witness :
  (getInfo (exampleProxy false (plainPlugin <$> ["cf"; "k8s"]) [cnsiA; cnsiB]
              (Err "connection refused")) tt).1
  = ["Failed to add relations data to endpoints during info request: "
     +:+ "Failed to fetch relations: " +:+ "connection refused"]
  ∧ ∃ s, (getInfo (exampleProxy false (plainPlugin <$> ["cf"; "k8s"]) [cnsiA; cnsiB]
                     (Err "connection refused")) tt).2 = Return (Ok s)
         ∧ Endpoints s = endpointsAB.
Proof.
  assert (addEndpoints
            (exampleProxy false (plainPlugin <$> ["cf"; "k8s"]) [cnsiA; cnsiB]
               (Err "connection refused")) "U" [cnsiA; cnsiB]
            (initEndpoints (plainPlugin <$> ["cf"; "k8s"]) ∅)
          = Return endpointsAB) as Hadd by reflexivity.
  destruct (getInfo_relations_failure_logged
              (exampleProxy false (plainPlugin <$> ["cf"; "k8s"]) [cnsiA; cnsiB]
                 (Err "connection refused"))
              tt tt "U" (userU false) endpointsAB "connection refused"
              eq_refl eq_refl eq_refl Hadd eq_refl) as (Hlog & _ & s0 & _ & _ & Hreturned).
  split; [exact Hlog|].
  destruct (Hreturned (plainPlugins_return ["cf"; "k8s"])) as (s & Hs & _).
  exists s. split; [exact Hs|].
  vm_compute in Hs. injection Hs as <-. reflexivity.
Defined.

(** C9 fails as stated: for a first page without endpoints the total is 0,
    and the requests that are joined are one, the first request. *)
Lemma flattenPagination_empty_response_one_request :
  CfAPIFlattener_getTotalPages (∅ : gmap string (CFEndpointResponse unit)) = 0%Z
  ∧ length (flattenPagination_requests (∅ : gmap string (CFEndpointResponse unit))
              (CfAPIFlattener (λ _, ∅) {| params := ∅ |})) = 1%nat
  ∧ Z.of_nat (length (flattenPagination_requests (∅ : gmap string (CFEndpointResponse unit))
                        (CfAPIFlattener (λ _, ∅) {| params := ∅ |})))
    ≠ CfAPIFlattener_getTotalPages (∅ : gmap string (CFEndpointResponse unit)).
Proof. split_and!; [reflexivity | reflexivity | discriminate]. Qed.

Lemma flattenPagination_page_requests_witness :
  CfAPIFlattener_getTotalPages firstPage = 3%Z
  ∧ additionalRequests
      (flattenPagination_requests firstPage (CfAPIFlattener (λ _, ∅) {| params := ∅ |}))
    = [ {| params := {[ "page" := "2" ]} |}; {| params := {[ "page" := "3" ]} |} ]
  ∧ Z.of_nat (length (flattenPagination_requests firstPage
                        (CfAPIFlattener (λ _, ∅) {| params := ∅ |})))
    = Z.max 1 (CfAPIFlattener_getTotalPages firstPage).
Proof.
  destruct (flattenPagination_page_requests firstPage (λ _, ∅) {| params := ∅ |})
    as (_ & _ & _ & _ & Hfetch & Hlen & _).
  split; [reflexivity|]. split; [|exact Hlen].
  rewrite Hfetch. reflexivity.
Defined.

Lemma marshalEndpointMetadata_cases_witness :
  marshalEndpointMetadata "{ }" = MetadataMap (Some (∅ : gmap string string))
  ∧ marshalEndpointMetadata "{a}" = MetadataMap (None : option (gmap string string))
  ∧ marshalEndpointMetadata "{}" = MetadataString (JSONObject := gmap string string) "{}"
  ∧ marshalEndpointMetadata "a{}" = MetadataString (JSONObject := gmap string string) "a{}".
Proof.
  split_and!.
  - refine (proj1 (proj1 (marshalEndpointMetadata_cases (JSONObject := gmap string string) "{ }")
                     _)).
    split; [simpl; lia | reflexivity].
  - refine (proj2 (proj1 (marshalEndpointMetadata_cases (JSONObject := gmap string string) "{a}")
                     _) _); [|reflexivity].
    split; [simpl; lia | reflexivity].
  - refine (proj2 (marshalEndpointMetadata_cases (JSONObject := gmap string string) "{}") _).
    intros [Hlen _]. simpl in Hlen. lia.
  - refine (proj2 (marshalEndpointMetadata_cases (JSONObject := gmap string string) "a{}") _).
    intros [_ Hfirst]. discriminate Hfirst.
Defined.

(** C10 fails as stated: decoding [overflowDocument] fails, and what
    [marshalEndpointMetadata] returns is not the nil map but the map that
    [json.Unmarshal] had filled when it reported the error. *)
Lemma marshalEndpointMetadata_error_with_map :
  (2 < String.length overflowDocument)%nat
  ∧ String.get 0 overflowDocument = Some "{"%char
  ∧ (json_Unmarshal (JSONObject := gmap string string) overflowDocument).2
    = Some "json: cannot unmarshal number 1e999 into Go value of type float64"
  ∧ marshalEndpointMetadata overflowDocument
    = MetadataMap (Some ({[ "a" := "null"; "b" := "2" ]} : gmap string string))
  ∧ marshalEndpointMetadata overflowDocument
    ≠ MetadataMap (None : option (gmap string string)).
Proof. split_and!; [simpl; lia | reflexivity | reflexivity | reflexivity | discriminate]. Qed.

(** ** The further properties on the deployment *)

Lemma updateEndpointsWithRelations_compose_witness :
  ∃ endpoints1,
    updateEndpointsWithRelations (exampleProxy false [] [] (Ok [relationAB])) endpointsAB
    = Ok endpoints1
    ∧ updateEndpointsWithRelations (exampleProxy false [] [] (Ok [relationAA])) endpoints1
      = updateEndpointsWithRelations (exampleProxy false [] [] (Ok [relationAB; relationAA]))
          endpointsAB.
Proof.
  exact (updateEndpointsWithRelations_compose
           (exampleProxy false [] [] (Ok [relationAB]))
           (exampleProxy false [] [] (Ok [relationAA]))
           (exampleProxy false [] [] (Ok [relationAB; relationAA]))
           [relationAB] [relationAA] endpointsAB eq_refl eq_refl eq_refl).
Defined.

Lemma updateEndpointsWithRelations_frame_witness :
  ∃ endpoints',
    updateEndpointsWithRelations (exampleProxy false [] [] (Ok [relationAB])) endpointsAB
    = Ok endpoints'
    ∧ dom endpoints' = dom endpointsAB
    ∧ lookupEndpoint endpoints' "cf" "B" = None.
Proof.
  eexists. split; [reflexivity|].
  destruct (updateEndpointsWithRelations_frame
              (exampleProxy false [] [] (Ok [relationAB])) endpointsAB _ eq_refl)
    as (Hdom & Hnone & _).
  split; [exact Hdom|]. apply Hnone. reflexivity.
Defined.

Lemma updateEndpointsWithRelations_entry_count_witness :
  ∃ endpoints' endpoint' rels,
    updateEndpointsWithRelations
      (exampleProxy false [] [] (Ok [relationAB; relationAA; relationAX])) endpointsAB
    = Ok endpoints'
    ∧ lookupEndpoint endpoints' "cf" "A" = Some endpoint'
    ∧ Relations endpoint' = Some rels
    ∧ (length (Provides rels) + length (Receives rels))%nat = 3%nat.
Proof.
  exact (updateEndpointsWithRelations_entry_count
           (exampleProxy false [] [] (Ok [relationAB; relationAA; relationAX]))
           [relationAB; relationAA; relationAX] endpointsAB "cf" "A"
           (newEndpointDetail (exampleProxy false [] [] (Ok [])) "U" cnsiA)
           eq_refl eq_refl eq_refl).
Defined.

Lemma getInfo_endpoints_keyed_witness :
  ∃ s endpoint,
    getInfo (exampleProxy false (plainPlugin <$> ["cf"; "k8s"]) [cnsiA; cnsiB]
               (Ok [relationAB])) tt = ([], Return (Ok s))
    ∧ lookupEndpoint (Endpoints s) "cf" "A" = Some endpoint
    ∧ Endpoint_CNSIRecord endpoint ∈ [cnsiA; cnsiB]
    ∧ CNSIType (Endpoint_CNSIRecord endpoint) = "cf"
    ∧ Endpoint_GUID endpoint = "A"
    ∧ (User endpoint, TokenMetadata endpoint, SystemSharedToken endpoint)
      = (Some (userU false), "token of U", false).
Proof.
  eexists _, _. split; [reflexivity|]. split; [reflexivity|].
  exact (getInfo_endpoints_keyed
           (exampleProxy false (plainPlugin <$> ["cf"; "k8s"]) [cnsiA; cnsiB] (Ok [relationAB]))
           tt [] _ "U" "cf" "A" _ eq_refl (plainPlugins_keep Endpoints ["cf"; "k8s"])
           eq_refl eq_refl).
Defined.

Lemma getInfo_last_listed_wins_witness :
  ∃ s,
    getInfo (exampleProxy false (plainPlugin <$> ["cf"]) [cnsiA_old; cnsiA] (Ok [])) tt
    = ([], Return (Ok s))
    ∧ ∃ endpoint,
        lookupEndpoint (Endpoints s) "cf" "A" = Some endpoint
        ∧ Endpoint_CNSIRecord endpoint = cnsiA.
Proof.
  eexists. split; [reflexivity|].
  refine (getInfo_last_listed_wins
            (exampleProxy false (plainPlugin <$> ["cf"]) [cnsiA_old; cnsiA] (Ok []))
            tt [] _ [cnsiA_old] cnsiA [] eq_refl (plainPlugins_keep Endpoints ["cf"]) eq_refl _).
  intros later Hin. by apply elem_of_nil in Hin.
Defined.

Lemma getInfo_relations_lists_witness :
  ∃ s endpoint,
    getInfo (exampleProxy false (plainPlugin <$> ["cf"; "k8s"]) [cnsiA; cnsiB]
               (Ok [relationAB; relationAA])) tt = ([], Return (Ok s))
    ∧ lookupEndpoint (Endpoints s) "cf" "A" = Some endpoint
    ∧ Relations endpoint
      = Some {| Provides := [ {| Guid := "B"; RelationType := "deploys-to"; Metadata := tt |};
                              {| Guid := "A"; RelationType := "mirrors"; Metadata := tt |} ];
                Receives := [] |}.
Proof.
  eexists _, _. split; [reflexivity|]. split; [reflexivity|].
  exact (getInfo_relations_lists
           (exampleProxy false (plainPlugin <$> ["cf"; "k8s"]) [cnsiA; cnsiB]
              (Ok [relationAB; relationAA]))
           tt [] _ [relationAB; relationAA] "cf" "A" _
           eq_refl (plainPlugins_keep Endpoints ["cf"; "k8s"]) eq_refl eq_refl).
Defined.

Lemma getInfo_relations_nil_witness :
  ∃ warnings s endpoint,
    getInfo (exampleProxy false (plainPlugin <$> ["cf"; "k8s"]) [cnsiA; cnsiB]
               (Err "connection refused")) tt = (warnings, Return (Ok s))
    ∧ lookupEndpoint (Endpoints s) "cf" "A" = Some endpoint
    ∧ Relations endpoint = None.
Proof.
  eexists _, _, _. split; [reflexivity|]. split; [reflexivity|].
  exact (getInfo_relations_nil
           (exampleProxy false (plainPlugin <$> ["cf"; "k8s"]) [cnsiA; cnsiB]
              (Err "connection refused"))
           tt _ _ "connection refused" "cf" "A" _
           eq_refl (plainPlugins_keep Endpoints ["cf"; "k8s"]) eq_refl eq_refl).
Defined.

Lemma getInfo_error_messages_witness :
  getInfo anonymousProxy tt = ([], Return (Err "Could not find session user_id"))
  ∧ ([] : list string) = []
  ∧ ((∃ e, getVersionsData anonymousProxy = Err e)
     ∧ "Could not find session user_id" = "Could not find database version"
     ∨ (∃ versions e, getVersionsData anonymousProxy = Ok versions
                      ∧ GetSessionStringValue anonymousProxy tt "user_id" = Err e)
       ∧ "Could not find session user_id" = "Could not find session user_id"
     ∨ (∃ versions userGUID e, getVersionsData anonymousProxy = Ok versions
                               ∧ GetSessionStringValue anonymousProxy tt "user_id" = Ok userGUID
                               ∧ GetUAAUser anonymousProxy userGUID = Err e)
       ∧ "Could not find session user_id" = "Could not load session user data").
Proof.
  split; [reflexivity|].
  exact (getInfo_error_messages anonymousProxy tt [] "Could not find session user_id" eq_refl).
Defined.

Lemma getInfo_Plugins_status_witness :
  ∃ s, getInfo (exampleProxy false [statusPlugin "cf"] [cnsiA] (Ok [])) tt
       = ([], Return (Ok s))
       ∧ Info_Plugins s = Some tt.
Proof.
  eexists. split; [reflexivity|].
  exact (getInfo_Plugins_status
           (exampleProxy false [statusPlugin "cf"] [cnsiA] (Ok [])) tt [] _ eq_refl).
Defined.

Lemma getInfo_admin_diagnostics_witness :
  ∃ s, getInfo (exampleProxy true (plainPlugin <$> ["cf"]) [cnsiA] (Ok [])) tt
       = ([], Return (Ok s))
       ∧ Diagnostics s = Some "database statistics".
Proof.
  eexists. split; [reflexivity|].
  exact (getInfo_admin_diagnostics
           (exampleProxy true (plainPlugin <$> ["cf"]) [cnsiA] (Ok [])) tt [] _ "U" (userU true)
           eq_refl eq_refl eq_refl eq_refl (plainPlugins_keep Diagnostics ["cf"])).
Defined.

Lemma getTotalPages_scan_order_witness :
  foldl (maxPages firstPage) 0%Z (reverse (Object_keys firstPage))
  = CfAPIFlattener_getTotalPages firstPage.
Proof.
  apply (getTotalPages_scan_order firstPage (reverse (Object_keys firstPage))).
  apply reverse_Permutation.
Defined.

Lemma deleteReleaseURL_first_colon_witness :
  deleteReleaseURL "abc:my:release" = "/pp/v1/helm/releases/abc/my:release".
Proof.
  apply (deleteReleaseURL_first_colon "abc" "my:release").
  intros [|[|[|i]]]; discriminate.
Defined.

Lemma deleteReleaseURL_no_colon_witness :
  deleteReleaseURL "abc" = "/pp/v1/helm/releases/abc".
Proof.
  apply (deleteReleaseURL_no_colon "abc").
  intros [|[|[|i]]]; discriminate.
Defined.

Lemma example_create_component (d : string) : is_Some (example_create d).2.
Proof. by eexists. Qed.

Lemma set_rows_creates_once_witness :
  (length (set_rows example_entity example_create emptyCell
             ["metrics"; "cf"; "kubernetes"; "cf"; "metrics"]).2 ≤ 1)%nat
  ∧ (is_Some (cell emptyCell) →
     (set_rows example_entity example_create emptyCell
        ["metrics"; "cf"; "kubernetes"; "cf"; "metrics"]).2 = [])
  ∧ (∀ row, last ["metrics"; "cf"; "kubernetes"; "cf"; "metrics"] = Some row →
            get_row (set_rows example_entity example_create emptyCell
                       ["metrics"; "cf"; "kubernetes"; "cf"; "metrics"]).1 = Some row).
Proof.
  exact (set_rows_creates_once example_entity example_create emptyCell
           ["metrics"; "cf"; "kubernetes"; "cf"; "metrics"] example_create_component).
Defined.

(** The cell that shows cf keeps showing it when the rows after it have no
    details component. *)
Lemma set_rows_cell_witness :
  cell (set_rows example_entity example_create emptyCell
          ["metrics"; "cf"; "kubernetes"; "metrics"]).1
  = Some {| details_row := Some "cf"; isTable := true |}.
Proof.
  exact (set_rows_cell example_entity example_create emptyCell
           ["metrics"; "cf"; "kubernetes"; "metrics"] example_create_component).
Defined.

